(** * A shallow embedding of Practice/CNN/cnn.ipynb

    The notebook defines a two-block convolutional network with PyTorch,
    trains it on MNIST with Adam and reports the test accuracy.  The
    development below embeds the notebook's cells: tensors with an explicit
    shape, the layers the model is built from, [CNN.forward], the data
    loader, the training loop and the evaluation block.

    Floating-point numbers are kept abstract: tensors hold elements of a type
    [R] with a zero, an addition, a multiplication and a comparison (class
    [Scalar]).  Shapes, counters and control flow are modelled exactly.

    The notebook's own code is the [CNN] class and the three code cells.
    The torch layers it instantiates ([Conv2d], [ReLU], [MaxPool2d],
    [Linear], [reshape], [torch.max], the [DataLoader]) are written out
    after their documented behaviour; what the notebook only calls and never
    looks into (the random generator, weight initialisation, the loss,
    autograd, Adam, the MNIST files) is an interface, class [Torch]. *)

From Stdlib Require Import String.
From Stdlib Require Import List Arith ZArith QArith Lia Bool Permutation.
Import ListNotations.
Close Scope Q_scope.
Open Scope nat_scope.

Set Implicit Arguments.

(** ** Exceptions and the result monad *)

(** The Python exceptions the notebook can die with. *)
Inductive exn : Type :=
| RuntimeError        (* raised by torch on a shape mismatch *)
| IndexError          (* [Tensor.size(d)] or a dataset index out of range *)
| ValueError          (* [DataLoader] with [batch_size = 0], or asked to shuffle nothing *)
| AssertionError      (* [.to('cuda')] on a torch build without CUDA *)
| OSError             (* a download that fails *)
| ZeroDivisionError.  (* [100*correct/total] with [total = 0] *)

Inductive result (A : Type) : Type :=
| Ok (a : A)
| Raise (e : exn).
Arguments Ok {A} a.
Arguments Raise {A} e.

Definition bind {A B : Type} (r : result A) (k : A -> result B) : result B :=
  match r with
  | Ok a => k a
  | Raise e => Raise e
  end.

Declare Scope result_scope.
Delimit Scope result_scope with result.
Notation "x <- r ;; k" := (bind r (fun x => k))
  (at level 61, r at next level, right associativity) : result_scope.
Notation "' pat <- r ;; k" := (bind r (fun x => match x with pat => k end))
  (at level 61, pat pattern, r at next level, right associativity) : result_scope.
Open Scope result_scope.

Definition is_ok {A : Type} (r : result A) : bool :=
  match r with Ok _ => true | Raise _ => false end.

(** ** Scalars and tensors *)

(** What the model needs of the element type of a float tensor. *)
Class Scalar (R : Type) : Type := {
  szero : R;
  sadd : R -> R -> R;
  smul : R -> R -> R;
  sle : R -> R -> bool
}.

(** Integers as scalars, to run the model on concrete inputs. *)
#[export] Instance Z_Scalar : Scalar Z := {|
  szero := 0%Z;
  sadd := Z.add;
  smul := Z.mul;
  sle := Z.leb
|}.

(** Number of elements of a tensor of the given shape. *)
Definition numel (sh : list nat) : nat := fold_right Nat.mul 1 sh.

(** [chunks count size l]: the first [count] consecutive pieces of [size]
    elements of [l] (row-major views of a flat buffer). *)
Fixpoint chunks {A : Type} (count size : nat) (l : list A) : list (list A) :=
  match count with
  | 0 => []
  | S c => firstn size l :: chunks c size (skipn size l)
  end.

(** Output extent of a convolution along one axis (torch: floor division). *)
Definition conv_out (i k s p : nat) : nat := (i + 2 * p - k) / s + 1.

(** Output extent of a pooling window along one axis, no padding, no
    dilation, [ceil_mode=False]. *)
Definition pool_out (i k s : nat) : nat := (i - k) / s + 1.

Section Tensors.
Context {R : Type} {SR : Scalar R}.

(** A tensor: its shape, its elements in row-major order, and the autograd
    flag [requires_grad]. *)
Record tensor : Type := mkTensor {
  shape : list nat;
  data : list R;
  requires_grad : bool
}.

(** [Tensor.size(d)]. *)
Definition size (x : tensor) (d : nat) : result nat :=
  match nth_error (shape x) d with
  | Some n => Ok n
  | None => Raise IndexError
  end.

(** The N x C x H x W view of a flat buffer. *)
Definition planes (N C H W : nat) (d : list R) : list (list (list (list R))) :=
  map (fun smp => map (chunks H W) (chunks C (H * W) smp))
      (chunks N (C * H * W) d).

(** Zero padding of [p] rows and columns around an H x W plane. *)
Definition pad2d (p W : nat) (pl : list (list R)) : list (list R) :=
  let zrow := repeat szero (W + 2 * p) in
  repeat zrow p
    ++ map (fun r => repeat szero p ++ r ++ repeat szero p) pl
    ++ repeat zrow p.

(** [acc + sum_i l1[i] * l2[i]]. *)
Definition dot (acc : R) (l1 l2 : list R) : R :=
  fold_left (fun a xy => sadd a (smul (fst xy) (snd xy))) (combine l1 l2) acc.

(** Adds to [acc] the cross-correlation of kernel [kern] with the window of
    [rows] that starts at column [j]. *)
Definition window_sum (acc : R) (rows kern : list (list R)) (j : nat) : R :=
  fold_left (fun a rk => dot a (skipn j (fst rk)) (snd rk)) (combine rows kern) acc.

(** One output element of a convolution: bias plus the sum over the input
    channels of the kernel applied at row [i], column [j] of the padded
    planes. *)
Definition conv_at (b : R) (xs ks : list (list (list R))) (i j : nat) : R :=
  fold_left (fun a xk => window_sum a (skipn i (fst xk)) (snd xk) j)
            (combine xs ks) b.

Definition conv2d_data (cin cout k s p N H W : nat) (wd bd xd : list R) : list R :=
  let xv := map (map (pad2d p W)) (planes N cin H W xd) in
  let wv := planes cout cin k k wd in
  flat_map (fun xs =>
    flat_map (fun co =>
      let ks := nth co wv [] in
      let b := nth co bd szero in
      flat_map (fun i =>
        map (fun j => conv_at b xs ks (i * s) (j * s))
            (seq 0 (conv_out W k s p)))
        (seq 0 (conv_out H k s p)))
      (seq 0 cout))
    xv.

(** [nn.Conv2d(cin, cout, kernel_size=k, stride=s, padding=p)] applied to
    [x].  The input is a batch, N x cin x H x W, or one unbatched sample,
    cin x H x W, which is convolved as a batch of one and returned without
    the batch axis.  The padded planes must be at least as large as the
    kernel; every other input raises. *)
Definition conv2d (gm : bool) (cin cout k s p : nat) (w b x : tensor) : result tensor :=
  match shape x with
  | [N; C; H; W] =>
      if negb (C =? cin) then Raise RuntimeError
      else if s =? 0 then Raise RuntimeError
      else if (H + 2 * p <? k) || (W + 2 * p <? k) then Raise RuntimeError
      else Ok {| shape := [N; cout; conv_out H k s p; conv_out W k s p];
                 data := conv2d_data cin cout k s p N H W (data w) (data b) (data x);
                 requires_grad :=
                   gm && (requires_grad x || requires_grad w || requires_grad b) |}
  | [C; H; W] =>
      if negb (C =? cin) then Raise RuntimeError
      else if s =? 0 then Raise RuntimeError
      else if (H + 2 * p <? k) || (W + 2 * p <? k) then Raise RuntimeError
      else Ok {| shape := [cout; conv_out H k s p; conv_out W k s p];
                 data := conv2d_data cin cout k s p 1 H W (data w) (data b) (data x);
                 requires_grad :=
                   gm && (requires_grad x || requires_grad w || requires_grad b) |}
  | _ => Raise RuntimeError
  end.

(** [nn.ReLU()]: elementwise max(0, v). *)
Definition smax (a b : R) : R := if sle a b then b else a.

Definition relu (gm : bool) (x : tensor) : result tensor :=
  Ok {| shape := shape x;
        data := map (smax szero) (data x);
        requires_grad := gm && requires_grad x |}.

(** Maximum of the k x k window at row [i], column [j] of a plane. *)
Definition pool_at (k : nat) (pl : list (list R)) (i j : nat) : R :=
  match flat_map (fun r => firstn k (skipn j r)) (firstn k (skipn i pl)) with
  | [] => szero
  | a :: rest => fold_left smax rest a
  end.

Definition max_pool2d_data (k s N C H W : nat) (xd : list R) : list R :=
  flat_map (fun smp =>
    flat_map (fun pl =>
      flat_map (fun i =>
        map (fun j => pool_at k pl (i * s) (j * s)) (seq 0 (pool_out W k s)))
        (seq 0 (pool_out H k s)))
      smp)
    (planes N C H W xd).

(** [nn.MaxPool2d(kernel_size=k, stride=s)] on a batch N x C x H x W or on
    one unbatched sample C x H x W.  torch rejects an input without
    channels, and an input plane smaller than the window (the output would
    be empty); an empty batch is let through. *)
Definition max_pool2d (gm : bool) (k s : nat) (x : tensor) : result tensor :=
  match shape x with
  | [N; C; H; W] =>
      if s =? 0 then Raise RuntimeError
      else if C =? 0 then Raise RuntimeError
      else if (H <? k) || (W <? k) then Raise RuntimeError
      else Ok {| shape := [N; C; pool_out H k s; pool_out W k s];
                 data := max_pool2d_data k s N C H W (data x);
                 requires_grad := gm && requires_grad x |}
  | [C; H; W] =>
      if s =? 0 then Raise RuntimeError
      else if C =? 0 then Raise RuntimeError
      else if (H <? k) || (W <? k) then Raise RuntimeError
      else Ok {| shape := [C; pool_out H k s; pool_out W k s];
                 data := max_pool2d_data k s 1 C H W (data x);
                 requires_grad := gm && requires_grad x |}
  | _ => Raise RuntimeError
  end.

(** [x.reshape(d0, -1)]: the second extent is inferred from the number of
    elements.  torch raises when [d0] does not divide it, and when [d0 = 0]
    (the inferred extent is then ambiguous or does not exist). *)
Definition reshape_infer (x : tensor) (d0 : nat) : result tensor :=
  let n := numel (shape x) in
  if d0 =? 0 then Raise RuntimeError
  else if n mod d0 =? 0
       then Ok {| shape := [d0; n / d0];
                  data := data x;
                  requires_grad := requires_grad x |}
       else Raise RuntimeError.

Definition linear_data (fin fout rows : nat) (wd bd xd : list R) : list R :=
  let wv := chunks fout fin wd in
  flat_map (fun row =>
    map (fun o => dot (nth o bd szero) row (nth o wv [])) (seq 0 fout))
    (chunks rows fin xd).

(** [nn.Linear(fin, fout)]: [x @ W^T + b] on the last axis, which must have
    [fin] elements. *)
Definition linear (gm : bool) (fin fout : nat) (w b x : tensor) : result tensor :=
  match rev (shape x) with
  | [] => Raise RuntimeError
  | f :: lead =>
      if f =? fin
      then Ok {| shape := rev lead ++ [fout];
                 data := linear_data fin fout (numel lead) (data w) (data b) (data x);
                 requires_grad :=
                   gm && (requires_grad x || requires_grad w || requires_grad b) |}
      else Raise RuntimeError
  end.

(** ** Modules and the CNN class *)

Inductive module : Type :=
| Conv2d (in_channels out_channels kernel_size stride padding : nat)
         (weight bias : tensor)
| ReLU
| MaxPool2d (kernel_size stride : nat)
| Linear (in_features out_features : nat) (weight bias : tensor).

(** The two switches a forward pass runs under: [torch.no_grad()] clears
    [grad_enabled]; [model.eval()] clears [training]. *)
Record mode : Type := mkMode {
  grad_enabled : bool;
  training : bool
}.

(** [module(x)].  None of the four layers reads [training] (the notebook
    has neither Dropout nor BatchNorm). *)
Definition call (md : mode) (m : module) (x : tensor) : result tensor :=
  match m with
  | Conv2d cin cout k s p w b => conv2d (grad_enabled md) cin cout k s p w b x
  | ReLU => relu (grad_enabled md) x
  | MaxPool2d k s => max_pool2d (grad_enabled md) k s x
  | Linear fin fout w b => linear (grad_enabled md) fin fout w b x
  end.

(** [nn.Sequential(...)(x)]. *)
Fixpoint Sequential (md : mode) (ms : list module) (x : tensor) : result tensor :=
  match ms with
  | [] => Ok x
  | m :: rest => y <- call md m x ;; Sequential md rest y
  end.

(** The values of the six parameter tensors of the model, in the order of
    [model.parameters()]. *)
Record Params : Type := mkParams {
  conv1_weight : list R;
  conv1_bias : list R;
  conv2_weight : list R;
  conv2_bias : list R;
  fc1_weight : list R;
  fc1_bias : list R
}.

Definition parameter (sh : list nat) (d : list R) : tensor :=
  {| shape := sh; data := d; requires_grad := true |}.

Record CNN : Type := mkCNN {
  layer1 : list module;
  layer2 : list module;
  fc1 : module
}.

(** [CNN.__init__(num_classes)] with parameter values [th]. *)
Definition CNN_init (num_classes : nat) (th : Params) : CNN :=
  {| layer1 := [Conv2d 1 16 5 1 2 (parameter [16; 1; 5; 5] (conv1_weight th))
                                  (parameter [16] (conv1_bias th));
                ReLU;
                MaxPool2d 2 2];
     layer2 := [Conv2d 16 32 5 1 2 (parameter [32; 16; 5; 5] (conv2_weight th))
                                   (parameter [32] (conv2_bias th));
                ReLU;
                MaxPool2d 2 2];
     fc1 := Linear (7 * 7 * 32) num_classes
                   (parameter [num_classes; 7 * 7 * 32] (fc1_weight th))
                   (parameter [num_classes] (fc1_bias th)) |}.

(** [CNN.forward]. *)
Definition forward (md : mode) (self : CNN) (x : tensor) : result tensor :=
  out <- Sequential md (layer1 self) x ;;
  out <- Sequential md (layer2 self) out ;;
  n <- size out 0 ;;
  out <- reshape_infer out n ;;
  call md (fc1 self) out.

(** An item of an image dataset behind [transforms.ToTensor()]: a picture
    as a float tensor of shape channels x height x width. *)
Record image : Type := mkImage {
  channels : nat;
  height : nat;
  width : nat;
  pixels : list R
}.

Definition image_tensor (im : image) : tensor :=
  {| shape := [channels im; height im; width im];
     data := pixels im;
     requires_grad := false |}.

End Tensors.

Arguments tensor R : clear implicits.
Arguments image R : clear implicits.
Arguments Params R : clear implicits.
Arguments module R : clear implicits.
Arguments CNN R : clear implicits.


(** ** The library operations the notebook calls

    Random number generation, weight initialisation, the loss, automatic
    differentiation, the Adam update, the accelerator and the MNIST files
    belong to torch, torchvision and the machine, not to the notebook; they
    are taken as an interface. *)
Class Torch (R : Type) : Type := {
  (** state of torch's default random generator *)
  Generator : Type;
  (** [torch.randperm(n)], drawn by the sampler of a shuffling loader *)
  randperm : Generator -> nat -> list nat * Generator;
  randperm_spec : forall g n, Permutation (fst (randperm g n)) (seq 0 n);
  (** the random initial weights of [CNN(num_classes)] *)
  reset_parameters : Generator -> nat -> Params R * Generator;
  (** [nn.CrossEntropyLoss()(outputs, labels)] *)
  CrossEntropyLoss : tensor R -> list Z -> result R;
  (** the gradient [loss.backward()] adds to the [.grad] fields: a function
      of the parameters and the batch the loss was computed from *)
  gradient : Params R -> tensor R -> list Z -> Params R;
  (** state of [torch.optim.Adam] and its update from the [.grad] fields *)
  Adam : Type;
  Adam_init : Adam;
  Adam_step : Adam -> Params R -> Params R -> Params R * Adam;
  (** [.to(device)] on the model: returns, or raises when the device is not
      there *)
  to_device : string -> result unit;
  (** [datasets.MNIST(root, train=..., download=True)] on the files of local
      storage: the files afterwards and the lines torchvision prints while
      it downloads, or the exception of a download that fails *)
  download_MNIST : string -> bool -> list string -> result (list string * list string);
  (** the items of [datasets.MNIST(train=..., transform=ToTensor())] as
      (image, label) pairs *)
  MNIST : bool -> list (image R * Z)
}.

(** ** The notebook's state, data loaders, training loop and evaluation *)

(** The library calls of one training iteration. *)
Inductive step : Type := SForward | SLoss | SZeroGrad | SBackward | SOptStep.

(** What ran, in order. *)
Inductive event : Type :=
| TrainEv (epoch batch : nat) (s : step)   (* a call in the training loop *)
| EvalMode                                 (* [model.eval()] *)
| EvalForward (batch : nat)                (* [model(images)] under no_grad *)
| EvalPrint.                               (* the final [print] *)

(** The lines the notebook prints. *)
Inductive line : Type :=
| TrainBatches (n : nat)   (* '==>>> total trainning batch number: {}' *)
| TestBatches (n : nat)    (* '==>>> total testing batch number: {}' *)
| Acc (q : Q)              (* 'ACC: {}%' *)
| Library (text : string). (* a line of torchvision's, while it downloads *)

(** Python's [a / b] on integers.  The quotient is kept as the exact
    rational; Python prints the float nearest to it. *)
Definition true_div (a b : Z) : result Q :=
  if (b =? 0)%Z then Raise ZeroDivisionError
  else if (b <? 0)%Z then Ok (Qmake (- a) (Z.to_pos (- b)))
  else Ok (Qmake a (Z.to_pos b)).

(** [BatchSampler] with [drop_last=False]: consecutive groups of [bs]
    indices, the last one possibly shorter. *)
Fixpoint batched (fuel bs : nat) (idx : list nat) : list (list nat) :=
  match fuel with
  | 0 => []
  | S f =>
      match idx with
      | [] => []
      | _ :: _ => firstn bs idx :: batched f bs (skipn bs idx)
      end
  end.

Definition batch_sampler (bs : nat) (idx : list nat) : list (list nat) :=
  batched (length idx) bs idx.

(** A download as the concrete library below performs it: the dataset
    directory is created unless it exists. *)
Definition download (root : string) (files : list string) : list string :=
  if in_dec string_dec root files then files else files ++ [root].

(** [predicted == labels] for an integer tensor [predicted] and the
    1-dimensional [labels], with torch's broadcasting: the last axis of
    [predicted] is matched with [labels], and an axis of extent 1 is
    stretched to the other operand's. *)
Definition eq_broadcast (predicted : tensor Z) (labels : list Z) : result (list bool) :=
  match rev (shape predicted) with
  | [] => Ok (map (Z.eqb (nth 0 (data predicted) 0%Z)) labels)
  | last :: lead =>
      let rows := chunks (numel lead) last (data predicted) in
      if last =? length labels
      then Ok (flat_map (fun row =>
                 map (fun pl => Z.eqb (fst pl) (snd pl)) (combine row labels)) rows)
      else if last =? 1
      then Ok (flat_map (fun row => map (Z.eqb (nth 0 row 0%Z)) labels) rows)
      else if length labels =? 1
      then Ok (flat_map (fun row => map (fun v => Z.eqb v (nth 0 labels 0%Z)) row) rows)
      else Raise RuntimeError
  end.

(** [t.sum().item()] on a boolean tensor. *)
Definition sum_item (bs : list bool) : Z := Z.of_nat (count_occ bool_dec bs true).

(** Statements over an interpreter state [W]: a result or an exception, and
    the state left behind. *)
Definition M (W A : Type) : Type := W -> result A * W.

Definition ret {W A : Type} (a : A) : M W A := fun w => (Ok a, w).

Definition bindM {W A B : Type} (m : M W A) (k : A -> M W B) : M W B :=
  fun w =>
    match m w with
    | (Ok a, w') => k a w'
    | (Raise e, w') => (Raise e, w')
    end.

Definition lift {W A : Type} (r : result A) : M W A := fun w => (r, w).

Definition modify {W : Type} (f : W -> W) : M W unit := fun w => (Ok tt, f w).

Declare Scope prog_scope.
Delimit Scope prog_scope with prog.
Notation "x <- m ;; k" := (bindM m (fun x => k))
  (at level 61, m at next level, right associativity) : prog_scope.
Notation "' pat <- m ;; k" := (bindM m (fun x => match x with pat => k end))
  (at level 61, pat pattern, m at next level, right associativity) : prog_scope.
Notation "m ;;; k" := (bindM m (fun _ => k))
  (at level 61, right associativity) : prog_scope.

Section Notebook.
Context {R : Type} {SR : Scalar R} {TR : Torch R}.

(** An item of the dataset: a picture behind [ToTensor()] and its label. *)
Definition sample : Type := (image R * Z)%type.

(** The interpreter state: the values of the model's parameters and of
    their [.grad] fields, the module's mode flag, torch's global autograd
    switch, the optimizer, the random generator, the files on local
    storage, the console, and the log of library calls. *)
Record world : Type := mkWorld {
  w_params : Params R;
  w_grad : option (Params R);
  w_training : bool;
  w_grad_enabled : bool;
  w_optim : Adam;
  w_gen : Generator;
  w_files : list string;
  w_stdout : list line;
  w_trace : list event
}.

Local Open Scope prog_scope.

Definition set_params (th : Params R) (w : world) : world :=
  mkWorld th (w_grad w) (w_training w) (w_grad_enabled w) (w_optim w)
          (w_gen w) (w_files w) (w_stdout w) (w_trace w).
Definition set_grad (g : option (Params R)) (w : world) : world :=
  mkWorld (w_params w) g (w_training w) (w_grad_enabled w) (w_optim w)
          (w_gen w) (w_files w) (w_stdout w) (w_trace w).
Definition set_training (b : bool) (w : world) : world :=
  mkWorld (w_params w) (w_grad w) b (w_grad_enabled w) (w_optim w)
          (w_gen w) (w_files w) (w_stdout w) (w_trace w).
Definition set_grad_enabled (b : bool) (w : world) : world :=
  mkWorld (w_params w) (w_grad w) (w_training w) b (w_optim w)
          (w_gen w) (w_files w) (w_stdout w) (w_trace w).
Definition set_optim (o : Adam) (w : world) : world :=
  mkWorld (w_params w) (w_grad w) (w_training w) (w_grad_enabled w) o
          (w_gen w) (w_files w) (w_stdout w) (w_trace w).
Definition set_gen (g : Generator) (w : world) : world :=
  mkWorld (w_params w) (w_grad w) (w_training w) (w_grad_enabled w) (w_optim w)
          g (w_files w) (w_stdout w) (w_trace w).

(** Logs a library call. *)
Definition emit (e : event) : M world unit :=
  modify (fun w =>
    mkWorld (w_params w) (w_grad w) (w_training w) (w_grad_enabled w) (w_optim w)
            (w_gen w) (w_files w) (w_stdout w) (w_trace w ++ [e])).

(** [print(...)]. *)
Definition print (l : line) : M world unit :=
  modify (fun w =>
    mkWorld (w_params w) (w_grad w) (w_training w) (w_grad_enabled w) (w_optim w)
            (w_gen w) (w_files w) (w_stdout w ++ [l]) (w_trace w)).

(** *** Data loading *)

Record DataLoader : Type := mkLoader {
  dataset : list sample;
  batch_size : nat;
  shuffle : bool
}.

(** [torch.utils.data.DataLoader(ds, batch_size=bs, shuffle=sh)]: the
    constructor refuses a batch size of 0, and the random sampler of a
    shuffling loader refuses an empty dataset. *)
Definition DataLoader_init (ds : list sample) (bs : nat) (sh : bool) : result DataLoader :=
  if bs =? 0 then Raise ValueError
  else if sh && (length ds =? 0) then Raise ValueError
  else Ok (mkLoader ds bs sh).

(** [len(loader)]: the number of batches, rounded up. *)
Definition len_loader (dl : DataLoader) : nat :=
  (length (dataset dl) + batch_size dl - 1) / batch_size dl.

(** [iter(loader)]: the index batches of one pass; a shuffling loader
    draws a fresh permutation from the generator. *)
Definition loader_iter (dl : DataLoader) : M world (list (list nat)) :=
  if shuffle dl
  then fun w =>
         let pg := randperm (w_gen w) (length (dataset dl)) in
         (Ok (batch_sampler (batch_size dl) (fst pg)), set_gen (snd pg) w)
  else ret (batch_sampler (batch_size dl) (seq 0 (length (dataset dl)))).

Fixpoint mapM {A B : Type} (f : A -> result B) (l : list A) : result (list B) :=
  match l with
  | [] => Ok []
  | a :: rest =>
      (b <- f a ;; bs <- mapM f rest ;; Ok (b :: bs))%result
  end.

Definition getitem (ds : list sample) (i : nat) : result sample :=
  match nth_error ds i with
  | Some s => Ok s
  | None => Raise IndexError
  end.

(** [torch.stack] of the default collate function: the images must all
    have the shape of the first one. *)
Definition stack (imgs : list (tensor R)) : result (tensor R) :=
  match imgs with
  | [] => Raise RuntimeError
  | x :: _ =>
      if forallb (fun y => if list_eq_dec Nat.eq_dec (shape y) (shape x)
                           then true else false) imgs
      then Ok {| shape := length imgs :: shape x;
                 data := flat_map (@data R) imgs;
                 requires_grad := false |}
      else Raise RuntimeError
  end.

(** One batch of the loader: the samples at [idx], collated into an image
    tensor and a label vector. *)
Definition fetch (dl : DataLoader) (idx : list nat) : result (tensor R * list Z) :=
  (smps <- mapM (getitem (dataset dl)) idx ;;
   images <- stack (map (fun smp => image_tensor (fst smp)) smps) ;;
   Ok (images, map snd smps))%result.

(** [for i, x in enumerate(l): body], counting from [i]. *)
Fixpoint for_enumerate {A : Type} (body : nat -> A -> M world unit) (i : nat) (l : list A) : M world unit :=
  match l with
  | [] => ret tt
  | a :: rest => body i a ;;; for_enumerate body (S i) rest
  end.

(** *** The model object *)

Definition num_classes : nat := 10.
Definition num_epoch : nat := 10.

(** [model(images)]: [CNN.forward] on the current parameters, under the
    current global switches. *)
Definition model_call (images : tensor R) : M world (tensor R) :=
  fun w =>
    (forward (mkMode (w_grad_enabled w) (w_training w))
             (CNN_init num_classes (w_params w)) images, w).

(** Pointwise sum of two gradients. *)
Definition vadd (a b : list R) : list R :=
  map (fun xy => sadd (fst xy) (snd xy)) (combine a b).

Definition params_add (a b : Params R) : Params R :=
  {| conv1_weight := vadd (conv1_weight a) (conv1_weight b);
     conv1_bias := vadd (conv1_bias a) (conv1_bias b);
     conv2_weight := vadd (conv2_weight a) (conv2_weight b);
     conv2_bias := vadd (conv2_bias a) (conv2_bias b);
     fc1_weight := vadd (fc1_weight a) (fc1_weight b);
     fc1_bias := vadd (fc1_bias a) (fc1_bias b) |}.

Definition vzero (a : list R) : list R := map (fun _ => szero) a.

Definition params_zero (a : Params R) : Params R :=
  {| conv1_weight := vzero (conv1_weight a);
     conv1_bias := vzero (conv1_bias a);
     conv2_weight := vzero (conv2_weight a);
     conv2_bias := vzero (conv2_bias a);
     fc1_weight := vzero (fc1_weight a);
     fc1_bias := vzero (fc1_bias a) |}.

(** [optimizer.zero_grad()]: clears the gradients that exist. *)
Definition zero_grad : M world unit :=
  modify (fun w => set_grad (option_map params_zero (w_grad w)) w).

(** [loss.backward()] for the loss of [outputs]: accumulates the gradient
    of the loss of this batch into the [.grad] fields.  A loss computed from
    outputs that do not require a gradient has no graph to go back through,
    and torch raises. *)
Definition backward (outputs images : tensor R) (labels : list Z) : M world unit :=
  if requires_grad outputs
  then modify (fun w =>
         let g := gradient (w_params w) images labels in
         set_grad (Some (match w_grad w with
                         | None => g
                         | Some old => params_add old g
                         end)) w)
  else lift (Raise RuntimeError).

(** [optimizer.step()]: the one statement that writes the parameters.
    Parameters without a gradient are skipped. *)
Definition optimizer_step : M world unit :=
  modify (fun w =>
    match w_grad w with
    | None => w
    | Some g =>
        let po := Adam_step (w_optim w) (w_params w) g in
        set_optim (snd po) (set_params (fst po) w)
    end).

(** *** Training *)

(** The body of the inner training loop.  [.to(device)] moves a tensor and
    leaves its values alone. *)
Definition train_batch (loader : DataLoader) (epoch i : nat) (idx : list nat) : M world unit :=
  ' (images, labels) <- lift (fetch loader idx) ;;
  emit (TrainEv epoch i SForward) ;;;
  outputs <- model_call images ;;
  emit (TrainEv epoch i SLoss) ;;;
  loss <- lift (CrossEntropyLoss outputs labels) ;;
  emit (TrainEv epoch i SZeroGrad) ;;;
  zero_grad ;;;
  emit (TrainEv epoch i SBackward) ;;;
  backward outputs images labels ;;;
  emit (TrainEv epoch i SOptStep) ;;;
  optimizer_step.

Definition train_epoch (loader : DataLoader) (epoch : nat) : M world unit :=
  batches <- loader_iter loader ;;
  for_enumerate (train_batch loader epoch) 0 batches.

(** [for epoch in range(n): ...], counting from [epoch]. *)
Fixpoint train_from (loader : DataLoader) (epoch n : nat) : M world unit :=
  match n with
  | 0 => ret tt
  | S k => train_epoch loader epoch ;;; train_from loader (S epoch) k
  end.

Definition train (loader : DataLoader) (n : nat) : M world unit := train_from loader 0 n.

(** *** Evaluation *)

(** Index of the first largest element of a row. *)
Fixpoint argmax_from (best : R) (besti i : nat) (row : list R) : nat :=
  match row with
  | [] => besti
  | v :: rest =>
      if sle v best then argmax_from best besti (S i) rest
      else argmax_from v i (S i) rest
  end.

Definition argmax (row : list R) : nat :=
  match row with
  | [] => 0
  | v :: rest => argmax_from v 0 1 rest
  end.

(** [_, predicted = torch.max(outputs.data, 1)]: the indices, along axis
    1, of the maxima of a tensor of shape d0 x d1 x rest; they form a tensor
    of shape d0 x rest (for a matrix: the column index of the maximum of
    every row).  A tensor with fewer than two axes has no axis 1, and an
    empty axis 1 has no maximum: both raise an IndexError. *)
Definition max_dim1 (x : tensor R) : result (tensor Z) :=
  match shape x with
  | d0 :: d1 :: rest =>
      if d1 =? 0 then Raise IndexError
      else
        let inner := numel rest in
        Ok {| shape := d0 :: rest;
              data :=
                flat_map (fun block =>
                  let rows := chunks d1 inner block in
                  map (fun r =>
                         Z.of_nat (argmax (map (fun row => nth r row szero) rows)))
                      (seq 0 inner))
                  (chunks d0 (d1 * inner) (data x));
              requires_grad := false |}
  | _ => Raise IndexError
  end.

(** The body of the evaluation loop on the counters [(correct, total)]. *)
Definition eval_batch (loader : DataLoader) (i : nat) (ct : Z * Z) (idx : list nat)
  : M world (Z * Z) :=
  ' (images, labels) <- lift (fetch loader idx) ;;
  emit (EvalForward i) ;;;
  outputs <- model_call images ;;
  predicted <- lift (max_dim1 outputs) ;;
  let total := (snd ct + Z.of_nat (length labels))%Z in
  eqs <- lift (eq_broadcast predicted labels) ;;
  let correct := (fst ct + sum_item eqs)%Z in
  ret (correct, total).

Fixpoint eval_loop (loader : DataLoader) (i : nat) (ct : Z * Z) (batches : list (list nat))
  : M world (Z * Z) :=
  match batches with
  | [] => ret ct
  | idx :: rest =>
      ct' <- eval_batch loader i ct idx ;;
      eval_loop loader (S i) ct' rest
  end.

(** [with torch.no_grad(): body]: the switch is restored on the way out,
    also when [body] raises. *)
Definition with_no_grad {A : Type} (body : M world A) : M world A :=
  fun w =>
    let saved := w_grad_enabled w in
    let rw := body (set_grad_enabled false w) in
    (fst rw, set_grad_enabled saved (snd rw)).

(** The evaluation cell; returns the final [(correct, total)]. *)
Definition eval_block (loader : DataLoader) : M world (Z * Z) :=
  with_no_grad (
    batches <- loader_iter loader ;;
    ct <- eval_loop loader 0 (0%Z, 0%Z) batches ;;
    acc <- lift (true_div (100 * fst ct) (snd ct)) ;;
    emit EvalPrint ;;;
    print (Acc acc) ;;;
    ret ct).

(** [model.eval()]. *)
Definition model_eval : M world unit :=
  emit EvalMode ;;; modify (set_training false).

(** *** The cells *)

(** [datasets.MNIST(root, train, download=True, transform=ToTensor())]:
    torchvision fetches what is missing under [root], printing as it goes,
    or raises. *)
Definition MNIST_dataset (root : string) (train : bool) : M world (list sample) :=
  fun w =>
    match download_MNIST root train (w_files w) with
    | Ok (files, printed) =>
        (Ok (MNIST train),
         mkWorld (w_params w) (w_grad w) (w_training w) (w_grad_enabled w) (w_optim w)
                 (w_gen w) files (w_stdout w ++ map Library printed) (w_trace w))
    | Raise e => (Raise e, w)
    end.

(** A fresh interpreter. *)
Definition fresh (g : Generator) (files : list string) (th : Params R) : world :=
  {| w_params := th; w_grad := None; w_training := true; w_grad_enabled := true;
     w_optim := Adam_init; w_gen := g; w_files := files;
     w_stdout := []; w_trace := [] |}.

(** Everything the third code cell does before its training loop; returns
    the two loaders. *)
Definition setup : M world (DataLoader * DataLoader) :=
  (* model = CNN(10).to(device) *)
  modify (fun w =>
    let pg := reset_parameters (w_gen w) num_classes in
    set_gen (snd pg) (set_training true (set_grad None (set_params (fst pg) w)))) ;;;
  lift (to_device "cuda") ;;;
  (* optimizer = torch.optim.Adam(model.parameters(), lr=0.001) *)
  modify (set_optim Adam_init) ;;;
  train_dataset <- MNIST_dataset "./data" true ;;
  test_dataset <- MNIST_dataset "./data" false ;;
  train_data_loader <- lift (DataLoader_init train_dataset 4 true) ;;
  test_data_loader <- lift (DataLoader_init test_dataset 4 true) ;;
  print (TrainBatches (len_loader train_data_loader)) ;;;
  print (TestBatches (len_loader test_data_loader)) ;;;
  ret (train_data_loader, test_data_loader).

(** Training, [model.eval()], then the evaluation block. *)
Definition train_and_evaluate (train_loader test_loader : DataLoader) (epochs : nat)
  : M world (Z * Z) :=
  train train_loader epochs ;;;
  model_eval ;;;
  eval_block test_loader.

(** The notebook, run top to bottom. *)
Definition notebook : M world (Z * Z) :=
  ' (train_data_loader, test_data_loader) <- setup ;;
  train_and_evaluate train_data_loader test_data_loader num_epoch.

End Notebook.

(** ** The layer sequence the forward pass is said to apply *)

Section Pipeline.
Context {R : Type} {SR : Scalar R}.

(** An operation applied to the activations: a layer, or the flattening of
    every sample. *)
Inductive op : Type :=
| Layer (m : module R)
| Flatten.

Definition apply_op (md : mode) (o : op) (x : tensor R) : result (tensor R) :=
  match o with
  | Layer m => call md m x
  | Flatten => n <- size x 0 ;; reshape_infer x n
  end.

(** The operations of a list, applied left to right. *)
Fixpoint pipeline (md : mode) (ops : list op) (x : tensor R) : result (tensor R) :=
  match ops with
  | [] => Ok x
  | o :: rest => y <- apply_op md o x ;; pipeline md rest y
  end.

(** The eight operations of the model, as the specification lists them. *)
Definition claimed_pipeline (nc : nat) (th : Params R) : list op :=
  [ Layer (Conv2d 1 16 5 1 2 (parameter [16; 1; 5; 5] (conv1_weight th))
                             (parameter [16] (conv1_bias th)));
    Layer ReLU;
    Layer (MaxPool2d 2 2);
    Layer (Conv2d 16 32 5 1 2 (parameter [32; 16; 5; 5] (conv2_weight th))
                              (parameter [32] (conv2_bias th)));
    Layer ReLU;
    Layer (MaxPool2d 2 2);
    Flatten;
    Layer (Linear (7 * 7 * 32) nc (parameter [nc; 7 * 7 * 32] (fc1_weight th))
                                  (parameter [nc] (fc1_bias th))) ].

(** The numeric content of a result: shape and elements, without the
    autograd flag. *)
Definition values (r : result (tensor R)) : result (list nat * list R) :=
  match r with
  | Ok t => Ok (shape t, data t)
  | Raise e => Raise e
  end.

(** Two tensors with the same shape and elements. *)
Definition same_values (a b : tensor R) : Prop :=
  shape a = shape b /\ data a = data b.

End Pipeline.

(** ** What the loops are said to do *)

(** The library calls of training iteration [i] of epoch [e]. *)
Definition batch_events (e i : nat) : list event :=
  map (TrainEv e i) [SForward; SLoss; SZeroGrad; SBackward; SOptStep].

(** The calls of epoch [e] over [nb] batches. *)
Definition epoch_events (nb e : nat) : list event :=
  flat_map (batch_events e) (seq 0 nb).

(** The calls of [n] epochs, counted from [start]. *)
Definition train_events (nb start n : nat) : list event :=
  flat_map (epoch_events nb) (seq start n).

(** The calls of the evaluation block over [nb] batches. *)
Definition eval_events (nb : nat) : list event :=
  map EvalForward (seq 0 nb) ++ [EvalPrint].

(** Training over [nbtrain] batches for [n] epochs, the switch to
    evaluation mode, then the accuracy pass over [nbtest] batches. *)
Definition schedule (nbtrain nbtest n : nat) : list event :=
  train_events nbtrain 0 n ++ [EvalMode] ++ eval_events nbtest.

(** Number of positions at which prediction and label agree. *)
Definition matches (predicted labels : list Z) : Z :=
  Z.of_nat (length (filter (fun pl => Z.eqb (fst pl) (snd pl)) (combine predicted labels))).

Section Specs.
Context {R : Type} {SR : Scalar R} {TR : Torch R}.

(** Number of samples of the batch at [idx] whose label is the arg-max of
    the model's output row, for parameters [th]. *)
Definition batch_hits (th : Params R) (loader : DataLoader) (idx : list nat) : Z :=
  match fetch loader idx with
  | Ok (images, labels) =>
      match forward (mkMode false false) (CNN_init num_classes th) images with
      | Ok outputs =>
          match max_dim1 outputs with
          | Ok predicted => matches (data predicted) labels
          | Raise _ => 0%Z
          end
      | Raise _ => 0%Z
      end
  | Raise _ => 0%Z
  end.

Definition hits (th : Params R) (loader : DataLoader) (batches : list (list nat)) : Z :=
  fold_right (fun idx acc => (batch_hits th loader idx + acc)%Z) 0%Z batches.

(** [stepped p q]: [q] is reached from [p] by Adam updates alone. *)
Inductive stepped : Params R -> Params R -> Prop :=
| stepped_refl p : stepped p p
| stepped_step p q o g : stepped p q -> stepped p (fst (Adam_step o q g)).

(** A statement changes the parameters by Adam updates only. *)
Definition steps_only {A : Type} (m : M world A) : Prop :=
  forall w, stepped (w_params w) (w_params (snd (m w))).

(** A statement leaves component [f] of the state alone, whatever its
    outcome. *)
Definition keeps {A X : Type} (f : world -> X) (m : M world A) : Prop :=
  forall w, f (snd (m w)) = f w.

(** The values a statement can return satisfy [P]. *)
Definition returns {A : Type} (m : M world A) (P : A -> Prop) : Prop :=
  forall w a, fst (m w) = Ok a -> P a.

(** The library calls a statement logs are a prefix of [sched], and all of
    [sched] when it returns. *)
Definition emits {A : Type} (m : M world A) (sched : list event) : Prop :=
  forall w, exists done,
    w_trace (snd (m w)) = w_trace w ++ done
    /\ (exists rest, sched = done ++ rest)
    /\ (is_ok (fst (m w)) = true -> done = sched).

End Specs.

(** ** Conditions on tensors, datasets and the library *)

Section Conditions.
Context {R : Type} {SR : Scalar R} {TR : Torch R}.

(** A tensor holds as many elements as its shape announces. *)
Definition well_formed (x : tensor R) : Prop :=
  length (data x) = numel (shape x).

(** A dataset of single-channel [H] x [W] images, as [ToTensor()] yields
    them. *)
Definition images_are (H W : nat) (ds : list (image R * Z)) : Prop :=
  Forall (fun s => shape (image_tensor (fst s)) = [1; H; W]) ds.

(** Every label is a class index. *)
Definition labels_in_range (ds : list (image R * Z)) : Prop :=
  Forall (fun s => (0 <= snd s < Z.of_nat num_classes)%Z) ds.

(** The loss returns on one row of [num_classes] scores per label, the
    labels being class indices. *)
Definition loss_accepts : Prop :=
  forall (outputs : tensor R) (labels : list Z),
    shape outputs = [length labels; num_classes] ->
    Forall (fun l => (0 <= l < Z.of_nat num_classes)%Z) labels ->
    is_ok (CrossEntropyLoss outputs labels) = true.

(** The generator after [k] permutations of [n] elements were drawn. *)
Fixpoint draws (n : nat) (g : Generator) (k : nat) : Generator :=
  match k with
  | 0 => g
  | S k' => draws n (snd (randperm g n)) k'
  end.

End Conditions.

(** ** Concrete inputs *)

(** Parameters under which the model answers class 1 on every image. *)
Definition toy_params : Params Z :=
  {| conv1_weight := repeat 1%Z 400; conv1_bias := repeat 0%Z 16;
     conv2_weight := repeat 0%Z 12800; conv2_bias := repeat 2%Z 32;
     fc1_weight := repeat 0%Z 1568 ++ repeat 1%Z 1568 ++ repeat 0%Z 12544;
     fc1_bias := repeat 3%Z 10 |}.

Definition toy_image (h w : nat) : image Z :=
  {| channels := 1; height := h; width := w; pixels := repeat 5%Z (h * w) |}.

Definition toy_batch (n h w : nat) : tensor Z :=
  {| shape := [n; 1; h; w]; data := repeat 5%Z (n * (h * w)); requires_grad := false |}.

Definition toy_dataset (train : bool) : list (image Z * Z) :=
  if train then [(toy_image 28 28, 1%Z)]
  else [(toy_image 28 28, 1%Z); (toy_image 28 28, 7%Z)].

(** Enough of torch to run the cells on integers: a generator that shuffles
    by reversing, a constant loss, the parameters themselves as gradient, an
    update that adds the gradient, a device that is there, and a download
    that announces itself when the directory is missing. *)
#[export] Instance toy_torch : Torch Z := {|
  Generator := nat;
  randperm := fun g n => (rev (seq 0 n), S g);
  randperm_spec := fun g n => Permutation_sym (Permutation_rev (seq 0 n));
  reset_parameters := fun g nc => (toy_params, S g);
  CrossEntropyLoss := fun outputs labels => Ok 0%Z;
  gradient := fun th images labels => th;
  Adam := nat;
  Adam_init := 0;
  Adam_step := fun o th g => (params_add th g, S o);
  to_device := fun device => Ok tt;
  download_MNIST := fun root train files =>
    Ok (download root files,
        if in_dec string_dec root files then [] else ["Downloading"%string]);
  MNIST := toy_dataset
|}.

Definition toy_world : world (R := Z) := fresh 0 [] toy_params.

(** The same interpreter with gradient tracking switched off. *)
Definition toy_world_no_grad : world (R := Z) := set_grad_enabled false toy_world.

(** One unbatched 1 x 112 x 224 picture. *)
Definition toy_unbatched : tensor Z :=
  {| shape := [1; 112; 224]; data := repeat 5%Z (112 * 224); requires_grad := false |}.

(** A 29 x 29 image. *)
Definition image_29 : tensor Z := toy_batch 1 29 29.

(** The output of the model on a 28 x 28 image of fives. *)
Definition toy_output : tensor Z :=
  {| shape := [1; 10];
     data := [3; 3139; 3; 3; 3; 3; 3; 3; 3; 3]%Z;
     requires_grad := true |}.

Definition toy_train_loader : DataLoader (R := Z) := mkLoader (toy_dataset true) 4 true.
Definition toy_test_loader : DataLoader (R := Z) := mkLoader (toy_dataset false) 4 true.

(** A loader over one 2 x 2 image, too small for the second pooling. *)
Definition toy_small_loader : DataLoader (R := Z) := mkLoader [(toy_image 2 2, 0%Z)] 4 true.

(** A small well-formed activation. *)
Definition toy_plane : tensor Z :=
  {| shape := [1; 1; 2; 3]; data := [1; -2; 3; -4; 5; -6]%Z; requires_grad := false |}.


(** * Properties *)

Unset Implicit Arguments.

(** ** Shapes through the layers *)

Section Shapes.
Context {R : Type} {SR : Scalar R}.

Lemma bind_ok {A B : Type} (r : result A) (k : A -> result B) (b : B) :
  bind r k = Ok b -> exists a, r = Ok a /\ k a = Ok b.
Proof.
  destruct r as [a|e]; simpl; intros E; [exists a; auto | discriminate].
Qed.

(** The shapes the convolution and the pooling take: planes [C; H; W]
    behind at most one batch axis. *)
Lemma batch_axis_cases (lead : list nat) :
  length lead <= 1 -> lead = [] \/ exists N, lead = [N].
Proof.
  destruct lead as [|N [|? ?]]; cbn [length]; intros L;
    [left; reflexivity | right; exists N; reflexivity | lia].
Qed.

(** A convolution returns exactly on inputs with the right channel count
    and planes no smaller than the kernel, batched or not; the batch axis,
    if any, is kept. *)
Lemma conv2d_ok gm cin cout k s p (w b x : tensor R) lead H W :
  length lead <= 1 ->
  shape x = lead ++ [cin; H; W] -> s <> 0 -> k <= H + 2 * p -> k <= W + 2 * p ->
  exists y, conv2d gm cin cout k s p w b x = Ok y
            /\ shape y = lead ++ [cout; conv_out H k s p; conv_out W k s p].
Proof.
  intros L Hs Hst HH HW. unfold conv2d.
  destruct (batch_axis_cases lead L) as [->|[N ->]]; cbn [app] in *; rewrite Hs;
    rewrite Nat.eqb_refl; simpl negb; cbv iota;
    (destruct (Nat.eqb_spec s 0) as [E|_]; [contradiction|]);
    (destruct (Nat.ltb_spec (H + 2 * p) k) as [L1|_]; [lia|]);
    (destruct (Nat.ltb_spec (W + 2 * p) k) as [L2|_]; [lia|]);
    simpl orb; cbv iota; eexists; split; reflexivity.
Qed.

Lemma conv2d_inv gm cin cout k s p (w b x y : tensor R) :
  conv2d gm cin cout k s p w b x = Ok y ->
  exists lead H W, length lead <= 1 /\ shape x = lead ++ [cin; H; W] /\ s <> 0
                /\ k <= H + 2 * p /\ k <= W + 2 * p
                /\ shape y = lead ++ [cout; conv_out H k s p; conv_out W k s p].
Proof.
  unfold conv2d.
  destruct (shape x) as [|a0 [|a1 [|a2 [|a3 [|? ?]]]]]; try discriminate.
  - destruct (Nat.eqb_spec a0 cin) as [->|NE]; simpl negb; cbv iota; [|discriminate].
    destruct (Nat.eqb_spec s 0) as [E|NZ]; [discriminate|].
    destruct (Nat.ltb_spec (a1 + 2 * p) k) as [L|GH]; [discriminate|].
    destruct (Nat.ltb_spec (a2 + 2 * p) k) as [L|GW]; [discriminate|].
    simpl orb. cbv iota. intros E. injection E as <-.
    exists [], a1, a2. cbn [length app shape]. repeat split; auto.
  - destruct (Nat.eqb_spec a1 cin) as [->|NE]; simpl negb; cbv iota; [|discriminate].
    destruct (Nat.eqb_spec s 0) as [E|NZ]; [discriminate|].
    destruct (Nat.ltb_spec (a2 + 2 * p) k) as [L|GH]; [discriminate|].
    destruct (Nat.ltb_spec (a3 + 2 * p) k) as [L|GW]; [discriminate|].
    simpl orb. cbv iota. intros E. injection E as <-.
    exists [a0], a2, a3. cbn [length app shape]. repeat split; auto.
Qed.

Lemma relu_inv gm (x y : tensor R) :
  relu gm x = Ok y -> shape y = shape x.
Proof. unfold relu. intros E. injection E as <-. reflexivity. Qed.

Lemma max_pool2d_ok gm k s (x : tensor R) lead C H W :
  length lead <= 1 ->
  shape x = lead ++ [C; H; W] -> s <> 0 -> C <> 0 -> k <= H -> k <= W ->
  exists y, max_pool2d gm k s x = Ok y
            /\ shape y = lead ++ [C; pool_out H k s; pool_out W k s].
Proof.
  intros L Hs Hst HC HH HW. unfold max_pool2d.
  destruct (batch_axis_cases lead L) as [->|[N ->]]; cbn [app] in *; rewrite Hs;
    (destruct (Nat.eqb_spec s 0) as [E|_]; [contradiction|]);
    (destruct (Nat.eqb_spec C 0) as [E|_]; [contradiction|]);
    (destruct (Nat.ltb_spec H k) as [L1|_]; [lia|]);
    (destruct (Nat.ltb_spec W k) as [L2|_]; [lia|]);
    simpl orb; cbv iota; eexists; split; reflexivity.
Qed.

Lemma max_pool2d_inv gm k s (x y : tensor R) :
  max_pool2d gm k s x = Ok y ->
  exists lead C H W, length lead <= 1 /\ shape x = lead ++ [C; H; W] /\ s <> 0
                  /\ C <> 0 /\ k <= H /\ k <= W
                  /\ shape y = lead ++ [C; pool_out H k s; pool_out W k s].
Proof.
  unfold max_pool2d.
  destruct (shape x) as [|a0 [|a1 [|a2 [|a3 [|? ?]]]]]; try discriminate.
  - destruct (Nat.eqb_spec s 0) as [E|NZ]; [discriminate|].
    destruct (Nat.eqb_spec a0 0) as [E|NC]; [discriminate|].
    destruct (Nat.ltb_spec a1 k) as [L|GH]; [discriminate|].
    destruct (Nat.ltb_spec a2 k) as [L|GW]; [discriminate|].
    simpl orb. cbv iota. intros E. injection E as <-.
    exists [], a0, a1, a2. cbn [length app shape]. repeat split; auto.
  - destruct (Nat.eqb_spec s 0) as [E|NZ]; [discriminate|].
    destruct (Nat.eqb_spec a1 0) as [E|NC]; [discriminate|].
    destruct (Nat.ltb_spec a2 k) as [L|GH]; [discriminate|].
    destruct (Nat.ltb_spec a3 k) as [L|GW]; [discriminate|].
    simpl orb. cbv iota. intros E. injection E as <-.
    exists [a0], a1, a2, a3. cbn [length app shape]. repeat split; auto.
Qed.

Lemma reshape_infer_inv (x y : tensor R) d0 :
  reshape_infer x d0 = Ok y ->
  d0 <> 0 /\ numel (shape x) mod d0 = 0 /\ shape y = [d0; numel (shape x) / d0].
Proof.
  unfold reshape_infer.
  destruct (Nat.eqb_spec d0 0) as [E|NZ]; [discriminate|].
  destruct (Nat.eqb_spec (numel (shape x) mod d0) 0) as [E|NE]; [|discriminate].
  intros E'. injection E' as <-. auto.
Qed.

Lemma reshape_infer_ok (x : tensor R) d0 :
  d0 <> 0 -> numel (shape x) mod d0 = 0 ->
  exists y, reshape_infer x d0 = Ok y /\ shape y = [d0; numel (shape x) / d0].
Proof.
  intros NZ E. unfold reshape_infer.
  destruct (Nat.eqb_spec d0 0) as [E0|_]; [contradiction|].
  rewrite E. simpl. eexists. split; reflexivity.
Qed.

Lemma linear_inv gm fin fout (w b x y : tensor R) :
  linear gm fin fout w b x = Ok y ->
  exists lead, shape x = lead ++ [fin] /\ shape y = lead ++ [fout].
Proof.
  unfold linear. destruct (rev (shape x)) as [|f lead] eqn:E; [discriminate|].
  destruct (Nat.eqb_spec f fin) as [->|NE]; [|discriminate].
  intros E'. injection E' as <-. exists (rev lead). split; [|reflexivity].
  rewrite <- (rev_involutive (shape x)), E. reflexivity.
Qed.

Lemma linear_ok gm fin fout (w b x : tensor R) lead :
  shape x = lead ++ [fin] ->
  exists y, linear gm fin fout w b x = Ok y /\ shape y = lead ++ [fout].
Proof.
  intros E. unfold linear. rewrite E, rev_app_distr. simpl.
  rewrite Nat.eqb_refl. eexists. split; [reflexivity|].
  simpl. rewrite rev_involutive. reflexivity.
Qed.

Lemma snoc_pair_inv {A : Type} (lead : list A) (a n m : A) :
  [n; m] = lead ++ [a] -> lead = [n] /\ m = a.
Proof.
  destruct lead as [|l0 [|l1 [|l2 lead]]]; intros E; try discriminate.
  injection E as -> ->. auto.
Qed.

(** Two readings of one shape as planes behind at most one batch axis
    agree. *)
Lemma planes_shape_inj (lead lead' : list nat) (C H W C' H' W' : nat) :
  length lead <= 1 -> length lead' <= 1 ->
  lead ++ [C; H; W] = lead' ++ [C'; H'; W'] ->
  lead = lead' /\ C = C' /\ H = H' /\ W = W'.
Proof.
  intros L L' E.
  destruct (batch_axis_cases lead L) as [->|[N ->]];
    destruct (batch_axis_cases lead' L') as [->|[N' ->]];
    cbn [app] in E; try discriminate.
  - repeat split; congruence.
  - repeat split; congruence.
Qed.

(** Extents through one block of the model: a 5x5 convolution with padding
    2 keeps them, a 2x2 pooling with stride 2 halves them. *)
Lemma conv_out_same n : 1 <= n -> conv_out n 5 1 2 = n.
Proof. intros L. unfold conv_out. rewrite Nat.div_1_r. lia. Qed.

Lemma pool_out_half n : 2 <= n -> pool_out n 2 2 = n / 2.
Proof.
  intros L. unfold pool_out.
  replace n with ((n - 2) + 1 * 2) at 2 by lia.
  rewrite Nat.div_add by lia. reflexivity.
Qed.

Lemma half_half n : n / 2 / 2 = n / 4.
Proof. rewrite Nat.Div0.div_div. reflexivity. Qed.

Lemma half_ge n : 2 <= n / 2 <-> 4 <= n.
Proof.
  split; intros L.
  - destruct (Nat.lt_ge_cases n 4) as [L4|]; [|assumption].
    assert (n / 2 < 2) by (apply Nat.Div0.div_lt_upper_bound; lia). lia.
  - change 2 with (4 / 2) at 1. apply Nat.Div0.div_le_mono. assumption.
Qed.

Lemma quarter_pos n : 1 <= n / 4 <-> 4 <= n.
Proof.
  split; intros L.
  - destruct (Nat.lt_ge_cases n 4) as [L4|]; [|assumption].
    rewrite Nat.div_small in L by assumption. lia.
  - change 1 with (4 / 4). apply Nat.Div0.div_le_mono. assumption.
Qed.

(** One convolution + ReLU + pooling block of the model. *)
Lemma block_inv md cin cout (w b x y : tensor R) :
  Sequential md [Conv2d cin cout 5 1 2 w b; ReLU; MaxPool2d 2 2] x = Ok y ->
  exists lead H W, length lead <= 1 /\ shape x = lead ++ [cin; H; W]
                /\ 2 <= H /\ 2 <= W /\ cout <> 0
                /\ shape y = lead ++ [cout; H / 2; W / 2].
Proof.
  cbn [Sequential call]. intros E.
  apply bind_ok in E as (a & Ea & E).
  apply bind_ok in E as (r & Er & E).
  apply bind_ok in E as (q & Eq & E). injection E as <-.
  apply conv2d_inv in Ea as (lead & H & W & L & Hx & _ & HH & HW & Ha).
  apply relu_inv in Er. rewrite Ha in Er.
  apply max_pool2d_inv in Eq as (lead' & C' & H' & W' & L' & Hr & _ & NC & LH & LW & Hq).
  rewrite Er in Hr.
  apply planes_shape_inj in Hr as (<- & <- & <- & <-); [|assumption..].
  assert (1 <= H) by lia. assert (1 <= W) by lia.
  rewrite !conv_out_same in * by assumption.
  rewrite !pool_out_half in Hq by assumption.
  exists lead, H, W. auto 8.
Qed.

Lemma block_ok md cin cout (w b x : tensor R) lead H W :
  length lead <= 1 ->
  shape x = lead ++ [cin; H; W] -> 2 <= H -> 2 <= W -> cout <> 0 ->
  exists y, Sequential md [Conv2d cin cout 5 1 2 w b; ReLU; MaxPool2d 2 2] x = Ok y
            /\ shape y = lead ++ [cout; H / 2; W / 2].
Proof.
  intros L Hx LH LW NC. cbn [Sequential call].
  destruct (conv2d_ok (grad_enabled md) cin cout 5 1 2 w b x lead H W L Hx)
    as (a & Ea & Ha); try lia.
  rewrite Ea. cbn [bind].
  rewrite !conv_out_same in Ha by lia.
  destruct (relu (grad_enabled md) a) as [r|e] eqn:Er; [|discriminate].
  apply relu_inv in Er. rewrite Ha in Er. cbn [bind].
  destruct (max_pool2d_ok (grad_enabled md) 2 2 r lead cout H W L Er) as (q & Eq & Hq);
    auto.
  rewrite Eq. cbn [bind]. rewrite !pool_out_half in Hq by assumption.
  exists q. auto.
Qed.

Lemma numel_block N C h w : numel [N; C; h; w] = N * (C * (h * w)).
Proof. simpl. rewrite Nat.mul_1_r. reflexivity. Qed.

Lemma numel_planes C h w : numel [C; h; w] = C * (h * w).
Proof. simpl. rewrite Nat.mul_1_r. reflexivity. Qed.

(** The exact condition under which the forward pass returns, and the shape
    of what it returns: on a batch of single-channel pictures, one row per
    picture; on one unbatched picture, one row per channel of the second
    block. *)
Lemma forward_inv md nc th (x y : tensor R) :
  forward md (CNN_init nc th) x = Ok y ->
  (exists N H W, shape x = [N; 1; H; W] /\ 1 <= N
                 /\ (H / 4) * (W / 4) = 49 /\ shape y = [N; nc])
  \/ (exists H W, shape x = [1; H; W]
                  /\ (H / 4) * (W / 4) = 7 * 7 * 32 /\ shape y = [32; nc]).
Proof.
  unfold forward, CNN_init. cbn [layer1 layer2 fc1].
  intros E.
  apply bind_ok in E as (a & Ea & E).
  apply bind_ok in E as (b & Eb & E).
  apply bind_ok in E as (n & En & E).
  apply bind_ok in E as (f & Ef & E).
  apply block_inv in Ea as (lead & H & W & L & Hx & LH & LW & _ & Ha).
  apply block_inv in Eb as (lead' & H' & W' & L' & Ha' & LH' & LW' & _ & Hb).
  rewrite Ha in Ha'.
  apply planes_shape_inj in Ha' as (<- & _ & <- & <-); [|assumption..].
  rewrite !half_half in Hb.
  unfold call in E. apply linear_inv in E as (ld & Hl & Hy).
  apply reshape_infer_inv in Ef as (NZ & _ & Hf).
  unfold size in En. rewrite Hb in En, Hf.
  destruct (batch_axis_cases lead L) as [->|[N ->]]; cbn [app nth_error] in *;
    injection En as <-.
  - right. rewrite numel_planes in Hf.
    rewrite (Nat.mul_comm 32), Nat.div_mul in Hf by lia.
    rewrite Hf in Hl. apply snoc_pair_inv in Hl as [-> Hfin].
    exists H, W. repeat split; auto.
  - left. rewrite numel_block in Hf.
    rewrite (Nat.mul_comm N), Nat.div_mul in Hf by assumption.
    rewrite Hf in Hl. apply snoc_pair_inv in Hl as [-> Hfin].
    exists N, H, W. repeat split; auto; lia.
Qed.

Lemma forward_ok md nc th (x : tensor R) N H W :
  shape x = [N; 1; H; W] -> 1 <= N -> (H / 4) * (W / 4) = 49 ->
  exists y, forward md (CNN_init nc th) x = Ok y /\ shape y = [N; nc].
Proof.
  intros Hx LN E49.
  assert (1 <= H / 4) by (destruct (H / 4); simpl in E49; [discriminate|lia]).
  assert (1 <= W / 4).
  { destruct (W / 4); [rewrite Nat.mul_0_r in E49; discriminate|lia]. }
  assert (4 <= H) by (apply quarter_pos; assumption).
  assert (4 <= W) by (apply quarter_pos; assumption).
  unfold forward, CNN_init. cbn [layer1 layer2 fc1].
  destruct (block_ok md 1 16 (parameter [16; 1; 5; 5] (conv1_weight th))
              (parameter [16] (conv1_bias th)) x [N] H W) as (a & Ea & Ha);
    cbn [length app]; try lia; try assumption.
  rewrite Ea. cbn [bind].
  destruct (block_ok md 16 32 (parameter [32; 16; 5; 5] (conv2_weight th))
              (parameter [32] (conv2_bias th)) a [N] (H / 2) (W / 2)) as (b & Eb & Hb);
    cbn [length app]; try lia; try assumption; try (apply half_ge; assumption).
  rewrite Eb. cbn [bind]. rewrite !half_half in Hb. cbn [app] in Hb.
  unfold size. rewrite Hb. cbn [nth_error bind].
  destruct (reshape_infer_ok b N) as (f & Ef & Hf); try lia.
  { rewrite Hb, numel_block, Nat.mul_comm. apply Nat.Div0.mod_mul. }
  rewrite Ef. cbn [bind].
  rewrite Hb, numel_block in Hf.
  rewrite (Nat.mul_comm N), Nat.div_mul in Hf by lia.
  rewrite E49 in Hf.
  unfold call.
  destruct (linear_ok (grad_enabled md) (7 * 7 * 32) nc
              (parameter [nc; 7 * 7 * 32] (fc1_weight th))
              (parameter [nc] (fc1_bias th)) f [N])
    as (y & Ey & Hy).
  { rewrite Hf. reflexivity. }
  exists y. auto.
Qed.

(** One unbatched single-channel picture goes through when its quartered
    extents multiply to the 1568 features of the classifier; the 32 channels
    of the second block are then taken for the batch. *)
Lemma forward_ok_unbatched md nc th (x : tensor R) H W :
  shape x = [1; H; W] -> (H / 4) * (W / 4) = 7 * 7 * 32 ->
  exists y, forward md (CNN_init nc th) x = Ok y /\ shape y = [32; nc].
Proof.
  intros Hx E.
  assert (1 <= H / 4) by (destruct (H / 4); simpl in E; [discriminate|lia]).
  assert (1 <= W / 4).
  { destruct (W / 4); [rewrite Nat.mul_0_r in E; discriminate|lia]. }
  assert (4 <= H) by (apply quarter_pos; assumption).
  assert (4 <= W) by (apply quarter_pos; assumption).
  unfold forward, CNN_init. cbn [layer1 layer2 fc1].
  destruct (block_ok md 1 16 (parameter [16; 1; 5; 5] (conv1_weight th))
              (parameter [16] (conv1_bias th)) x [] H W) as (a & Ea & Ha);
    cbn [length app]; try lia; try assumption.
  rewrite Ea. cbn [bind].
  destruct (block_ok md 16 32 (parameter [32; 16; 5; 5] (conv2_weight th))
              (parameter [32] (conv2_bias th)) a [] (H / 2) (W / 2)) as (b & Eb & Hb);
    cbn [length app]; try lia; try assumption; try (apply half_ge; assumption).
  rewrite Eb. cbn [bind]. rewrite !half_half in Hb. cbn [app] in Hb.
  unfold size. rewrite Hb. cbn [nth_error bind].
  destruct (reshape_infer_ok b 32) as (f & Ef & Hf); try lia.
  { rewrite Hb, numel_planes, Nat.mul_comm. apply Nat.Div0.mod_mul. }
  rewrite Ef. cbn [bind].
  rewrite Hb, numel_planes in Hf.
  rewrite (Nat.mul_comm 32), Nat.div_mul in Hf by lia.
  rewrite E in Hf.
  unfold call.
  destruct (linear_ok (grad_enabled md) (7 * 7 * 32) nc
              (parameter [nc; 7 * 7 * 32] (fc1_weight th))
              (parameter [nc] (fc1_bias th)) f [32])
    as (y & Ey & Hy).
  { rewrite Hf. reflexivity. }
  exists y. auto.
Qed.

End Shapes.

(** ** The forward pass: layers, batch extent, accepted inputs *)

Section Forward.
Context {R : Type} {SR : Scalar R}.

Lemma bind_assoc {A B C : Type} (r : result A) (f : A -> result B) (g : B -> result C) :
  bind (bind r f) g = bind r (fun a => bind (f a) g).
Proof. destruct r; reflexivity. Qed.

(** Running a [Sequential] and continuing is running its layers one by one
    and continuing. *)
Lemma pipeline_Sequential md (ms : list (module R)) (rest : list op) (x : tensor R) :
  pipeline md (map Layer ms ++ rest) x = bind (Sequential md ms x) (pipeline md rest).
Proof.
  revert x. induction ms as [|m ms IH]; intros x; [reflexivity|].
  cbn [map app pipeline Sequential apply_op]. rewrite bind_assoc.
  destruct (call md m x) as [y|e]; [apply IH|reflexivity].
Qed.

(** C1. [CNN.forward] is the composition, in this order, of: convolution
    1->16 (kernel 5, stride 1, padding 2), ReLU, 2x2 max-pooling with stride
    2, convolution 16->32 with the same geometry, ReLU, the same pooling,
    flattening of every sample, and one fully-connected layer to
    [num_classes] outputs -- these eight operations and no other, on every
    input, failures included. *)
Theorem forward_is_claimed_pipeline :
  forall (md : mode) (nc : nat) (th : Params R) (x : tensor R),
    forward md (CNN_init nc th) x = pipeline md (claimed_pipeline nc th) x.
Proof.
  intros md nc th x. unfold forward.
  change (claimed_pipeline nc th)
    with (map Layer (layer1 (CNN_init nc th))
          ++ map Layer (layer2 (CNN_init nc th))
          ++ [Flatten; Layer (fc1 (CNN_init nc th))]).
  rewrite pipeline_Sequential.
  destruct (Sequential md (layer1 (CNN_init nc th)) x) as [a|e]; [|reflexivity].
  cbn [bind]. rewrite pipeline_Sequential.
  destruct (Sequential md (layer2 (CNN_init nc th)) a) as [b|e]; [|reflexivity].
  cbn [bind pipeline apply_op]. rewrite bind_assoc.
  destruct (size b 0) as [n|e]; [|reflexivity].
  cbn [bind]. destruct (reshape_infer b n) as [f|e]; [|reflexivity].
  cbn [bind]. destruct (call md (fc1 (CNN_init nc th)) f); reflexivity.
Qed.

(** C2, as amended.  Whenever the forward pass returns on a 4-dimensional
    input, its output has as many rows (extent of axis 0) as its input.  On
    every other input on which it returns (an unbatched 1 x H x W picture)
    axis 0 of the input has extent 1 and the output has 32 rows: the
    channels of the second block are taken for the batch by
    [out.reshape(out.size(0), -1)]. *)
Theorem forward_preserves_batch :
  forall (md : mode) (nc : nat) (th : Params R) (x y : tensor R),
    forward md (CNN_init nc th) x = Ok y ->
    (length (shape x) = 4 -> exists n, size x 0 = Ok n /\ size y 0 = Ok n)
    /\ (length (shape x) <> 4 -> size x 0 = Ok 1 /\ size y 0 = Ok 32).
Proof.
  intros md nc th x y E.
  apply forward_inv in E as [(N & H & W & Hx & _ & _ & Hy)|(H & W & Hx & _ & Hy)];
    unfold size; rewrite Hx, Hy; cbn [length nth_error]; split.
  - intros _. exists N. split; reflexivity.
  - intros NE. contradiction NE. reflexivity.
  - discriminate.
  - intros _. split; reflexivity.
Qed.

(** C9, as amended.  The forward pass returns only on inputs of shape
    N x 1 x H x W with a non-empty batch and [(H/4) * (W/4) = 49] (integer
    division: the two pooling stages round down, so 28x28 is one such size
    among others), or on an unbatched 1 x H x W picture with
    [(H/4) * (W/4) = 1568]; on every other input it raises. *)
Theorem forward_accepts_only :
  forall (md : mode) (nc : nat) (th : Params R) (x : tensor R),
    is_ok (forward md (CNN_init nc th) x) = true ->
    (exists N H W, shape x = [N; 1; H; W] /\ 1 <= N /\ (H / 4) * (W / 4) = 49)
    \/ (exists H W, shape x = [1; H; W] /\ (H / 4) * (W / 4) = 7 * 7 * 32).
Proof.
  intros md nc th x.
  destruct (forward md (CNN_init nc th) x) as [y|e] eqn:E; [|discriminate].
  intros _.
  apply forward_inv in E as [(N & H & W & Hx & LN & E49 & _)|(H & W & Hx & E' & _)].
  - left. exists N, H, W. auto.
  - right. exists H, W. auto.
Qed.

Lemma values_same (a b : tensor R) :
  same_values a b -> values (Ok a) = values (Ok b).
Proof. intros [Hs Hd]. simpl. rewrite Hs, Hd. reflexivity. Qed.

Lemma bind_values (r1 r2 : result (tensor R)) (k1 k2 : tensor R -> result (tensor R)) :
  values r1 = values r2 ->
  (forall a b, same_values a b -> values (k1 a) = values (k2 b)) ->
  values (bind r1 k1) = values (bind r2 k2).
Proof.
  intros E K. destruct r1 as [a|e1], r2 as [b|e2]; simpl in E; try discriminate.
  - apply K. injection E as Hs Hd. split; assumption.
  - exact E.
Qed.

Ltac same_branches :=
  repeat match goal with
         | |- context [if ?c then _ else _] => destruct c
         end; reflexivity.

(** No layer lets the autograd switch or the training flag into the numbers
    it computes. *)
Lemma call_values md1 md2 (m : module R) (a b : tensor R) :
  same_values a b -> values (call md1 m a) = values (call md2 m b).
Proof.
  intros [Hs Hd]. destruct m as [cin cout k s p w bi| |k s|fin fout w bi]; cbn [call].
  - unfold conv2d. rewrite Hs, Hd.
    destruct (shape b) as [|N [|C [|H [|W [|? ?]]]]]; try reflexivity;
      same_branches.
  - unfold relu. simpl. rewrite Hs, Hd. reflexivity.
  - unfold max_pool2d. rewrite Hs, Hd.
    destruct (shape b) as [|N [|C [|H [|W [|? ?]]]]]; try reflexivity;
      same_branches.
  - unfold linear. rewrite Hs, Hd.
    destruct (rev (shape b)) as [|f lead]; [reflexivity|]. same_branches.
Qed.

Lemma Sequential_values md1 md2 (ms : list (module R)) (a b : tensor R) :
  same_values a b -> values (Sequential md1 ms a) = values (Sequential md2 ms b).
Proof.
  revert a b. induction ms as [|m ms IH]; intros a b S.
  - apply values_same. assumption.
  - cbn [Sequential]. apply bind_values; [apply call_values; assumption|].
    intros a' b' S'. apply IH. assumption.
Qed.

Lemma flatten_values (a b : tensor R) :
  same_values a b ->
  values (n <- size a 0 ;; reshape_infer a n) = values (n <- size b 0 ;; reshape_infer b n).
Proof.
  intros [Hs Hd]. unfold size, reshape_infer. rewrite Hs, Hd.
  destruct (nth_error (shape b) 0) as [n|]; [|reflexivity].
  cbn [bind]. same_branches.
Qed.

(** The numbers the forward pass computes depend on the parameters and the
    input only. *)
Lemma forward_values md1 md2 (self : CNN R) (a b : tensor R) :
  same_values a b -> values (forward md1 self a) = values (forward md2 self b).
Proof.
  intros S. unfold forward.
  apply bind_values; [apply Sequential_values; assumption|].
  intros a1 b1 S1.
  apply bind_values; [apply Sequential_values; assumption|].
  intros a2 b2 S2.
  pose proof (flatten_values a2 b2 S2) as F.
  destruct S2 as [Hs Hd]. unfold size in *. rewrite Hs in *.
  destruct (nth_error (shape b2) 0) as [n|]; [|reflexivity].
  cbn [bind] in *.
  apply bind_values; [exact F|].
  intros a3 b3 S3. apply call_values. assumption.
Qed.

End Forward.

(** C9, as stated, fails: a 1 x 1 x 29 x 29 input is not of shape
    batch x 1 x 28 x 28, and the forward pass returns on it. *)
Lemma forward_accepts_29x29 :
  shape image_29 = [1; 1; 29; 29]
  /\ (forall n, shape image_29 <> [n; 1; 28; 28])
  /\ is_ok (forward (mkMode false false) (CNN_init 10 toy_params) image_29) = true.
Proof.
  split; [reflexivity|]. split; [intros n; discriminate|].
  vm_compute. reflexivity.
Qed.

(** C2, as stated, fails: the forward pass returns on the unbatched
    1 x 112 x 224 picture, whose axis 0 has extent 1, and its output has 32
    rows. *)
Lemma forward_unbatched_rows :
  exists y, forward (mkMode false false) (CNN_init 10 toy_params) toy_unbatched = Ok y
            /\ size toy_unbatched 0 = Ok 1 /\ size y 0 = Ok 32.
Proof.
  destruct (forward_ok_unbatched (mkMode false false) 10 toy_params toy_unbatched 112 224)
    as (y & E & Hy); [reflexivity | reflexivity |].
  exists y. split; [exact E|]. split; [reflexivity|].
  unfold size. rewrite Hy. reflexivity.
Qed.

Lemma forward_accepts_only_witness :
  (exists N H W, shape (toy_batch 2 4 196) = [N; 1; H; W] /\ 1 <= N
                 /\ (H / 4) * (W / 4) = 49)
  \/ (exists H W, shape (toy_batch 2 4 196) = [1; H; W]
                  /\ (H / 4) * (W / 4) = 7 * 7 * 32).
Proof.
  apply (forward_accepts_only (mkMode false false) 10 toy_params (toy_batch 2 4 196)).
  vm_compute. reflexivity.
Defined.

Lemma forward_preserves_batch_witness :
  (length (shape (toy_batch 1 28 28)) = 4 ->
   exists n, size (toy_batch 1 28 28) 0 = Ok n /\ size toy_output 0 = Ok n)
  /\ (length (shape (toy_batch 1 28 28)) <> 4 ->
      size (toy_batch 1 28 28) 0 = Ok 1 /\ size toy_output 0 = Ok 32).
Proof.
  apply (forward_preserves_batch (mkMode true true) 10 toy_params).
  vm_compute. reflexivity.
Defined.

(** ** Statements: frames and logged calls *)

Section Statements.
Context {R : Type} {SR : Scalar R} {TR : Torch R}.
Local Open Scope prog_scope.

Lemma bindM_ok {A B : Type} (m : M world A) (k : A -> M world B) w b w' :
  bindM m k w = (Ok b, w') ->
  exists a w1, m w = (Ok a, w1) /\ k a w1 = (Ok b, w').
Proof.
  unfold bindM. destruct (m w) as [[a|e] w1]; intros E; [|discriminate].
  exists a, w1. auto.
Qed.

Lemma keeps_ret {A X : Type} (f : world -> X) (a : A) : keeps f (ret a).
Proof. intros w. reflexivity. Qed.

Lemma keeps_lift {A X : Type} (f : world -> X) (r : result A) : keeps f (lift r).
Proof. intros w. reflexivity. Qed.

Lemma keeps_modify {X : Type} (f : world -> X) (g : world -> world) :
  (forall w, f (g w) = f w) -> keeps f (modify g).
Proof. intros E w. apply E. Qed.

Lemma keeps_bind {A B X : Type} (f : world -> X) (m : M world A) (k : A -> M world B) :
  keeps f m -> (forall a, keeps f (k a)) -> keeps f (bindM m k).
Proof.
  intros Hm Hk w. unfold bindM. specialize (Hm w).
  destruct (m w) as [[a|e] w1]; simpl in *; [rewrite Hk|]; assumption.
Qed.

Lemma keeps_for_enumerate {A X : Type} (f : world -> X) (body : nat -> A -> M world unit) :
  (forall i a, keeps f (body i a)) ->
  forall l i, keeps f (for_enumerate body i l).
Proof.
  intros Hb l. induction l as [|a l IH]; intros i; cbn [for_enumerate].
  - apply keeps_ret.
  - apply keeps_bind; [apply Hb | intros _; apply IH].
Qed.

Lemma keeps_with_no_grad {A X : Type} (f : world -> X) (body : M world A) :
  (forall b w, f (set_grad_enabled b w) = f w) ->
  keeps f body -> keeps f (with_no_grad body).
Proof.
  intros Hf Hb w. unfold with_no_grad. cbn [snd]. rewrite Hf, Hb, Hf. reflexivity.
Qed.

Lemma keeps_loader_iter {X : Type} (f : world -> X) (dl : DataLoader) :
  (forall g w, f (set_gen g w) = f w) -> keeps f (loader_iter dl).
Proof.
  intros Hf w. unfold loader_iter. destruct (shuffle dl); [apply Hf|reflexivity].
Qed.

Lemma keeps_model_call {X : Type} (f : world -> X) (images : tensor R) :
  keeps f (model_call images).
Proof. intros w. reflexivity. Qed.

Lemma keeps_backward {X : Type} (f : world -> X) (outputs images : tensor R)
      (labels : list Z) :
  (forall g w, f (set_grad g w) = f w) -> keeps f (backward outputs images labels).
Proof.
  intros Hf w. unfold backward.
  destruct (requires_grad outputs); [apply Hf | reflexivity].
Qed.

(** *** Logged calls *)

Lemma emits_silent {A : Type} (m : M world A) :
  keeps w_trace m -> emits m [].
Proof.
  intros K w. exists []. rewrite K, app_nil_r.
  split; [reflexivity|]. split; [exists []; reflexivity | reflexivity].
Qed.

Lemma emits_emit (e : event) : emits (emit e) [e].
Proof.
  intros w. exists [e]. split; [reflexivity|].
  split; [exists []; reflexivity | reflexivity].
Qed.

Lemma emits_bind {A B : Type} (m : M world A) (k : A -> M world B)
      (P : A -> Prop) (s1 s2 : list event) :
  emits m s1 -> returns m P -> (forall a, P a -> emits (k a) s2) ->
  emits (bindM m k) (s1 ++ s2).
Proof.
  intros Hm Hr Hk w. unfold bindM.
  destruct (Hm w) as (d1 & T1 & (r1 & P1) & F1). specialize (Hr w).
  destruct (m w) as [[a|e] w1]; cbn [fst snd] in *.
  - specialize (F1 eq_refl). subst d1.
    destruct (Hk a (Hr a eq_refl) w1) as (d2 & T2 & (r2 & P2) & F2).
    exists (s1 ++ d2). rewrite T2, T1, app_assoc. split; [reflexivity|].
    split; [exists r2; rewrite P2, app_assoc; reflexivity|].
    intros O. rewrite (F2 O). reflexivity.
  - exists d1. split; [assumption|].
    split; [exists (r1 ++ s2); rewrite P1, app_assoc; reflexivity | discriminate].
Qed.

Lemma returns_any {A : Type} (m : M world A) : returns m (fun _ => True).
Proof. intros w a _. exact I. Qed.

Lemma emits_seq {A B : Type} (m : M world A) (k : A -> M world B) (s1 s2 : list event) :
  emits m s1 -> (forall a, emits (k a) s2) -> emits (bindM m k) (s1 ++ s2).
Proof.
  intros Hm Hk. apply emits_bind with (P := fun _ => True); auto using returns_any.
Qed.

Lemma keeps_trace_modify (g : world -> world) :
  (forall w, w_trace (g w) = w_trace w) -> emits (modify g) [].
Proof. intros E. apply emits_silent, keeps_modify, E. Qed.

(** One training iteration logs its five calls, in order. *)
Lemma train_batch_emits (loader : DataLoader) (e i : nat) (idx : list nat) :
  emits (train_batch loader e i idx) (batch_events e i).
Proof.
  unfold train_batch, batch_events. cbn [map].
  apply (emits_seq _ _ [] _); [apply emits_silent, keeps_lift|].
  intros [images labels].
  apply (emits_seq _ _ [_] _); [apply emits_emit|]. intros _.
  apply (emits_seq _ _ [] _); [apply emits_silent, keeps_model_call|].
  intros outputs.
  apply (emits_seq _ _ [_] _); [apply emits_emit|]. intros _.
  apply (emits_seq _ _ [] _); [apply emits_silent, keeps_lift|].
  intros loss.
  apply (emits_seq _ _ [_] _); [apply emits_emit|]. intros _.
  apply (emits_seq _ _ [] _);
    [apply keeps_trace_modify; intros; reflexivity|]. intros _.
  apply (emits_seq _ _ [_] _); [apply emits_emit|]. intros _.
  apply (emits_seq _ _ [] _);
    [apply emits_silent, keeps_backward; intros; reflexivity|]. intros _.
  apply (emits_seq _ _ [_] []); [apply emits_emit|]. intros _.
  apply keeps_trace_modify. intros w. destruct (w_grad w); reflexivity.
Qed.

Lemma for_enumerate_emits {A : Type} (body : nat -> A -> M world unit)
      (ev : nat -> list event) :
  (forall i a, emits (body i a) (ev i)) ->
  forall l i, emits (for_enumerate body i l) (flat_map ev (seq i (length l))).
Proof.
  intros Hb l. induction l as [|a l IH]; intros i; cbn [for_enumerate length seq flat_map].
  - apply emits_silent, keeps_ret.
  - apply emits_seq; [apply Hb | intros _; apply IH].
Qed.

End Statements.

(** Solves [keeps f m] for a statement built from the primitives that do
    not write [f]. *)
Ltac frame :=
  repeat first
    [ apply keeps_ret | apply keeps_lift | apply keeps_model_call
    | apply keeps_bind; [|intros]
    | match goal with |- keeps _ (match ?p with (_, _) => _ end) => destruct p end
    | apply keeps_modify; intros; reflexivity
    | apply keeps_backward; intros; reflexivity
    | apply keeps_loader_iter; intros; reflexivity ].


(** ** Batches *)

Section Batches.
Context {R : Type} {SR : Scalar R} {TR : Torch R}.
Local Open Scope prog_scope.

Lemma keeps_eval_loop {X : Type} (f : world -> X) (loader : DataLoader) :
  (forall e, keeps f (emit e)) ->
  forall batches i ct, keeps f (eval_loop loader i ct batches).
Proof.
  intros He batches.
  induction batches as [|idx rest IH]; intros i ct; cbn [eval_loop].
  - apply keeps_ret.
  - apply keeps_bind; [|intros; apply IH].
    unfold eval_batch. frame. apply He.
Qed.


(** The sampler of a loader yields [len(loader)] batches. *)
Lemma batched_length (bs : nat) :
  0 < bs ->
  forall fuel idx, length idx <= fuel ->
    length (batched fuel bs idx) = (length idx + bs - 1) / bs.
Proof.
  intros Hbs fuel. induction fuel as [|f IH]; intros idx L.
  - destruct idx; [|simpl in L; lia]. simpl. rewrite Nat.div_small; lia.
  - destruct idx as [|a l]; [simpl; rewrite Nat.div_small; lia|].
    cbn [batched length]. rewrite IH.
    2:{ rewrite length_skipn. cbn [length] in *. lia. }
    rewrite length_skipn. cbn [length].
    destruct (Nat.le_gt_cases bs (S (length l))) as [G|G].
    + replace (S (length l) - bs + bs - 1) with (length l) by lia.
      replace (S (length l) + bs - 1) with (length l + 1 * bs) by lia.
      rewrite Nat.div_add by lia. lia.
    + replace (S (length l) - bs + bs - 1) with (bs - 1) by lia.
      rewrite Nat.div_small by lia.
      apply Nat.div_unique with (r := length l); lia.
Qed.

(** Its batches, laid end to end, are the indices it was given. *)
Lemma batched_concat (bs : nat) :
  0 < bs ->
  forall fuel idx, length idx <= fuel -> concat (batched fuel bs idx) = idx.
Proof.
  intros Hbs fuel. induction fuel as [|f IH]; intros idx L.
  - destruct idx; [reflexivity | simpl in L; lia].
  - destruct idx as [|a l]; [reflexivity|].
    cbn [batched concat]. rewrite IH.
    + apply firstn_skipn.
    + rewrite length_skipn. cbn [length] in *. lia.
Qed.

Lemma loader_iter_returns (dl : DataLoader) :
  0 < batch_size dl ->
  returns (loader_iter dl)
          (fun batches => length batches = len_loader dl
                          /\ Permutation (concat batches) (seq 0 (length (dataset dl)))).
Proof.
  intros Hbs w batches. unfold loader_iter, len_loader, batch_sampler.
  destruct (shuffle dl); cbn [fst ret]; intros E; injection E as <-.
  - pose proof (randperm_spec (w_gen w) (length (dataset dl))) as P.
    rewrite batched_length, batched_concat by auto.
    rewrite (Permutation_length P), length_seq. auto.
  - rewrite batched_length, batched_concat by auto.
    rewrite length_seq. auto.
Qed.

Lemma mapM_length {A B : Type} (f : A -> result B) (l : list A) (l' : list B) :
  mapM f l = Ok l' -> length l' = length l.
Proof.
  revert l'. induction l as [|a l IH]; intros l' E; cbn [mapM] in E.
  - injection E as <-. reflexivity.
  - apply bind_ok in E as (b & _ & E).
    apply bind_ok in E as (bs & Ebs & E). injection E as <-.
    simpl. rewrite (IH bs Ebs). reflexivity.
Qed.

Lemma stack_rows (imgs : list (tensor R)) (t : tensor R) :
  stack imgs = Ok t -> hd_error (shape t) = Some (length imgs).
Proof.
  unfold stack. destruct imgs as [|x rest]; [discriminate|].
  destruct (forallb _ _); [|discriminate].
  intros E. injection E as <-. reflexivity.
Qed.

(** A fetched batch has one image and one label per index. *)
Lemma fetch_lengths (dl : DataLoader) (idx : list nat)
      (images : tensor R) (labels : list Z) :
  fetch dl idx = Ok (images, labels) ->
  length labels = length idx /\ hd_error (shape images) = Some (length idx).
Proof.
  unfold fetch. intros E.
  apply bind_ok in E as (smps & Es & E).
  apply bind_ok in E as (imgs & Ei & E). injection E as <- <-.
  apply mapM_length in Es. rewrite length_map. split; [exact Es|].
  rewrite (stack_rows _ _ Ei), length_map. f_equal. exact Es.
Qed.

(** A fetched batch is 4-dimensional: the pictures of the dataset, stacked
    along a new axis 0. *)
Lemma fetch_shape (dl : DataLoader) (idx : list nat)
      (images : tensor R) (labels : list Z) :
  fetch dl idx = Ok (images, labels) ->
  exists c h w, shape images = [length idx; c; h; w].
Proof.
  unfold fetch. intros E.
  apply bind_ok in E as (smps & Es & E).
  apply bind_ok in E as (imgs & Ei & E). injection E as <- <-.
  apply mapM_length in Es. unfold stack in Ei.
  destruct smps as [|[im l] rest]; [discriminate|]. cbn [map] in Ei.
  destruct (forallb _ _); [|discriminate].
  injection Ei as <-. cbn [shape image_tensor fst length] in *.
  rewrite length_map. exists (channels im), (height im), (width im).
  f_equal. exact Es.
Qed.

Lemma chunks_length {A : Type} (count size : nat) (l : list A) :
  length (chunks count size l) = count.
Proof.
  revert l. induction count as [|c IH]; intros l; simpl; [|rewrite IH]; reflexivity.
Qed.

Lemma max_dim1_same (a b : tensor R) :
  same_values a b -> max_dim1 a = max_dim1 b.
Proof. intros [Hs Hd]. unfold max_dim1. rewrite Hs, Hd. reflexivity. Qed.

Lemma flat_map_singletons {A B : Type} (f : A -> B) (l : list A) :
  flat_map (fun a => [f a]) l = map f l.
Proof. induction l as [|a l IH]; [reflexivity|]. simpl. rewrite IH. reflexivity. Qed.

(** On a matrix, [torch.max(x, 1)] yields one index per row. *)
Lemma max_dim1_rows (x : tensor R) (n c : nat) :
  shape x = [n; c] -> c <> 0 ->
  exists predicted, max_dim1 x = Ok predicted
                    /\ shape predicted = [n] /\ length (data predicted) = n.
Proof.
  intros Hs NZ. unfold max_dim1. rewrite Hs.
  destruct (Nat.eqb_spec c 0) as [E|_]; [contradiction|].
  eexists. split; [reflexivity|]. split; [reflexivity|].
  cbn [data numel fold_right seq map].
  rewrite flat_map_singletons, length_map. apply chunks_length.
Qed.

Lemma max_dim1_length (x : tensor R) (n c : nat) (predicted : tensor Z) :
  shape x = [n; c] -> max_dim1 x = Ok predicted ->
  shape predicted = [n] /\ length (data predicted) = n.
Proof.
  intros Hs E.
  destruct (Nat.eq_dec c 0) as [->|NZ].
  - unfold max_dim1 in E. rewrite Hs in E. discriminate.
  - destruct (max_dim1_rows x n c Hs NZ) as (p & Ep & Hp).
    rewrite Ep in E. injection E as <-. exact Hp.
Qed.

Lemma count_true_map {A : Type} (f : A -> bool) (l : list A) :
  count_occ bool_dec (map f l) true = length (filter f l).
Proof.
  induction l as [|a l IH]; [reflexivity|].
  cbn [map filter]. destruct (f a) eqn:E.
  - rewrite count_occ_cons_eq by reflexivity. simpl. rewrite IH. reflexivity.
  - rewrite count_occ_cons_neq by discriminate. exact IH.
Qed.

(** On a vector of predictions as long as the labels the comparison is
    positionwise, and its sum counts the agreeing positions. *)
Lemma eq_broadcast_rows (predicted : tensor Z) (labels : list Z) :
  shape predicted = [length labels] ->
  length (data predicted) = length labels ->
  eq_broadcast predicted labels
  = Ok (map (fun pl => Z.eqb (fst pl) (snd pl)) (combine (data predicted) labels)).
Proof.
  intros Hs L. unfold eq_broadcast. rewrite Hs. cbn [rev app numel fold_right chunks].
  rewrite Nat.eqb_refl. cbn [flat_map]. rewrite app_nil_r.
  rewrite <- L, firstn_all. reflexivity.
Qed.

Lemma eq_broadcast_matches (predicted : tensor Z) (labels : list Z) eqs :
  shape predicted = [length labels] ->
  length (data predicted) = length labels ->
  eq_broadcast predicted labels = Ok eqs ->
  sum_item eqs = matches (data predicted) labels.
Proof.
  intros Hs L. rewrite eq_broadcast_rows by assumption.
  intros E. injection E as <-. unfold sum_item, matches.
  rewrite count_true_map. reflexivity.
Qed.

Lemma matches_bounds (predicted labels : list Z) :
  (0 <= matches predicted labels <= Z.of_nat (length labels))%Z.
Proof.
  unfold matches. split; [lia|]. apply Nat2Z.inj_le.
  etransitivity; [apply filter_length_le|].
  rewrite length_combine. lia.
Qed.

End Batches.

(** ** The evaluation block *)

Section Evaluation.
Context {R : Type} {SR : Scalar R} {TR : Torch R}.
Local Open Scope prog_scope.

Lemma forward_values_ok md1 md2 (self : CNN R) (x y : tensor R) :
  forward md2 self x = Ok y ->
  exists y', forward md1 self x = Ok y' /\ same_values y' y.
Proof.
  intros E.
  pose proof (forward_values md1 md2 self x x (conj eq_refl eq_refl)) as V.
  rewrite E in V. destruct (forward md1 self x) as [y'|e]; [|discriminate].
  exists y'. split; [reflexivity|]. simpl in V. injection V as Hs Hd.
  split; assumption.
Qed.

(** One pass of the loop body: [total] grows by the batch size, [correct]
    by the number of samples whose label is the arg-max of their output row,
    which is at most the batch size; the parameters are not written. *)
Lemma eval_batch_ok (loader : DataLoader) (i : nat) (c t : Z) (idx : list nat)
      (w w' : world) (c' t' : Z) :
  eval_batch loader i (c, t) idx w = (Ok (c', t'), w') ->
  t' = (t + Z.of_nat (length idx))%Z
  /\ c' = (c + batch_hits (w_params w) loader idx)%Z
  /\ (0 <= batch_hits (w_params w) loader idx <= Z.of_nat (length idx))%Z
  /\ w_params w' = w_params w.
Proof.
  unfold eval_batch. intros E.
  apply bindM_ok in E as ([images labels] & w1 & E1 & E).
  unfold lift in E1. injection E1 as Ef <-.
  apply bindM_ok in E as ([] & w2 & E2 & E).
  unfold emit, modify in E2. injection E2 as <-.
  apply bindM_ok in E as (outputs & w3 & E3 & E).
  unfold model_call in E3. injection E3 as Eo <-.
  apply bindM_ok in E as (predicted & w4 & E4 & E).
  unfold lift in E4. injection E4 as Ep <-.
  apply bindM_ok in E as (eqs & w5 & E5 & E).
  unfold lift in E5. injection E5 as Eq <-.
  unfold ret in E. cbn [fst snd] in E. injection E as <- <- <-.
  cbn [w_params w_grad_enabled w_training] in *.
  destruct (fetch_lengths loader idx images labels Ef) as [Ll _].
  destruct (fetch_shape loader idx images labels Ef) as (c0 & h0 & w0 & Hi).
  destruct (forward_values_ok (mkMode false false) _ _ _ _ Eo) as (o' & Eo' & S).
  apply forward_inv in Eo as [(N & H & W & Hx & _ & _ & Hy)|(H & W & Hx & _)];
    [|rewrite Hx in Hi; discriminate].
  rewrite Hx in Hi. injection Hi as -> _ _ _.
  destruct (max_dim1_length outputs _ _ predicted Hy Ep) as [Sp Lp].
  rewrite <- Ll in Sp, Lp.
  assert (Hm : sum_item eqs = matches (data predicted) labels).
  { apply eq_broadcast_matches; assumption. }
  assert (Hb : batch_hits (w_params w) loader idx = matches (data predicted) labels).
  { unfold batch_hits. rewrite Ef, Eo', (max_dim1_same o' outputs S), Ep. reflexivity. }
  rewrite Hb, Hm, Ll. repeat split; try reflexivity.
  - apply matches_bounds.
  - rewrite <- Ll. apply matches_bounds.
Qed.

Lemma hits_bounds (th : Params R) (loader : DataLoader) (batches : list (list nat)) :
  (forall idx, In idx batches ->
     (0 <= batch_hits th loader idx <= Z.of_nat (length idx))%Z) ->
  (0 <= hits th loader batches <= Z.of_nat (length (concat batches)))%Z.
Proof.
  induction batches as [|idx rest IH]; intros Hb; cbn [hits fold_right concat].
  - simpl. lia.
  - rewrite length_app, Nat2Z.inj_add.
    pose proof (Hb idx (or_introl eq_refl)).
    fold (hits th loader rest).
    assert (0 <= hits th loader rest <= Z.of_nat (length (concat rest)))%Z.
    { apply IH. intros j Hj. apply Hb. right. assumption. }
    lia.
Qed.

(** The loop, from any counters: [total] grows by the number of samples
    seen, [correct] by the number of hits among them. *)
Lemma eval_loop_ok (loader : DataLoader) (batches : list (list nat)) :
  forall (i : nat) (c t : Z) (w w' : world) (c' t' : Z),
    eval_loop loader i (c, t) batches w = (Ok (c', t'), w') ->
    t' = (t + Z.of_nat (length (concat batches)))%Z
    /\ c' = (c + hits (w_params w) loader batches)%Z
    /\ (0 <= hits (w_params w) loader batches <= Z.of_nat (length (concat batches)))%Z
    /\ w_params w' = w_params w.
Proof.
  induction batches as [|idx rest IH]; intros i c t w w' c' t' E; cbn [eval_loop] in E.
  - unfold ret in E. injection E as <- <- <-. cbn [hits fold_right concat length].
    repeat split; lia.
  - apply bindM_ok in E as ([c1 t1] & w1 & E1 & E).
    apply eval_batch_ok in E1 as (-> & -> & B1 & P1).
    apply IH in E as (-> & -> & B2 & P2).
    rewrite P1 in *. cbn [hits fold_right concat].
    fold (hits (w_params w) loader rest).
    rewrite length_app, Nat2Z.inj_add.
    repeat split; try lia. congruence.
Qed.

(** A loop that gets through [pre ++ post] got through [pre] first. *)
Lemma eval_loop_app (loader : DataLoader) (pre post : list (list nat)) :
  forall (i : nat) (ct : Z * Z) (w : world),
    eval_loop loader i ct (pre ++ post) w
    = bindM (eval_loop loader i ct pre)
            (fun ct' => eval_loop loader (i + length pre) ct' post) w.
Proof.
  induction pre as [|idx rest IH]; intros i ct w; cbn [app eval_loop length].
  - unfold bindM, ret. rewrite Nat.add_0_r. reflexivity.
  - replace (i + S (length rest)) with (S i + length rest) by lia.
    unfold bindM at 1 2 3.
    destruct (eval_batch loader i ct idx w) as [[ct1|e] w1]; [|reflexivity].
    apply IH.
Qed.

End Evaluation.

Section EvaluationClaims.
Context {R : Type} {SR : Scalar R} {TR : Torch R}.
Local Open Scope prog_scope.

Lemma keeps_emit_stdout (e : event) : keeps (w_stdout (R := R)) (emit e).
Proof. intros w. reflexivity. Qed.

Lemma keeps_emit_files (e : event) : keeps (w_files (R := R)) (emit e).
Proof. intros w. reflexivity. Qed.

Lemma keeps_emit_params (e : event) : keeps (w_params (R := R)) (emit e).
Proof. intros w. reflexivity. Qed.

Lemma loader_iter_grad_switch (loader : DataLoader) (b : bool) (w : world) :
  fst (loader_iter loader (set_grad_enabled b w)) = fst (loader_iter loader w).
Proof. unfold loader_iter. destruct (shuffle loader); reflexivity. Qed.

Lemma true_div_pos (a b : Z) (q : Q) :
  (0 <= b)%Z -> true_div a b = Ok q -> (0 < b)%Z /\ q = Qmake a (Z.to_pos b).
Proof.
  intros Hb. unfold true_div.
  destruct (Z.eqb_spec b 0) as [E|NE]; [discriminate|].
  destruct (Z.ltb_spec b 0) as [L|G]; [lia|].
  intros E. injection E as <-. split; [lia | reflexivity].
Qed.

(** C5. When the evaluation block completes with counters
    [(correct, total)]: the loader handed out every test sample exactly
    once, [total] (counted up from 0 by the label count of each batch) is the
    number of test samples, [correct] (counted up from 0) is the number of
    positions at which the arg-max of the model's output row equals the
    label, the block printed the one line 'ACC: 100*correct/total %', and it
    wrote neither a file nor the model. *)
Theorem eval_block_counts :
  forall (loader : DataLoader) (w : world) (correct total : Z),
    0 < batch_size loader ->
    fst (eval_block loader w) = Ok (correct, total) ->
    exists batches,
      fst (loader_iter loader w) = Ok batches
      /\ Permutation (concat batches) (seq 0 (length (dataset loader)))
      /\ total = Z.of_nat (length (dataset loader))
      /\ correct = hits (w_params w) loader batches
      /\ w_stdout (snd (eval_block loader w))
         = w_stdout w ++ [Acc (Qmake (100 * correct) (Z.to_pos total))]
      /\ w_files (snd (eval_block loader w)) = w_files w
      /\ w_params (snd (eval_block loader w)) = w_params w.
Proof.
  intros loader w c t Hbs. unfold eval_block, with_no_grad. cbn [fst snd].
  set (w0 := set_grad_enabled false w).
  match goal with |- fst (?body w0) = _ -> _ => destruct (body w0) as [r wz] eqn:E end.
  cbn [fst snd]. intros ->.
  apply bindM_ok in E as (batches & wa & Ea & E).
  pose proof (loader_iter_returns loader Hbs w0 batches) as Ret.
  pose proof (keeps_loader_iter w_stdout loader (fun _ _ => eq_refl) w0) as Sa.
  pose proof (keeps_loader_iter w_files loader (fun _ _ => eq_refl) w0) as Fa.
  pose proof (keeps_loader_iter w_params loader (fun _ _ => eq_refl) w0) as Pa.
  rewrite Ea in Ret, Sa, Fa, Pa. cbn [fst snd] in Ret, Sa, Fa, Pa.
  destruct (Ret eq_refl) as [_ Perm].
  apply bindM_ok in E as ([c1 t1] & wb & Eb & E).
  pose proof (keeps_eval_loop w_stdout loader keeps_emit_stdout batches 0 (0, 0)%Z wa) as Sb.
  pose proof (keeps_eval_loop w_files loader keeps_emit_files batches 0 (0, 0)%Z wa) as Fb.
  rewrite Eb in Sb, Fb. cbn [snd] in Sb, Fb.
  apply eval_loop_ok in Eb as (Ht & Hc & _ & Pb).
  rewrite (Permutation_length Perm), length_seq in Ht. simpl in Ht, Hc.
  apply bindM_ok in E as (acc & wc & Ec & E).
  unfold lift in Ec. injection Ec as Eacc <-. cbn [fst snd] in Eacc.
  apply true_div_pos in Eacc as [_ ->]; [|lia].
  apply bindM_ok in E as ([] & wd & Ed & E).
  unfold emit, modify in Ed. injection Ed as <-.
  apply bindM_ok in E as ([] & we & Ee & E).
  unfold print, modify in Ee. injection Ee as <-.
  unfold ret in E. injection E as <- <- <-.
  exists batches. cbn [w_stdout w_files w_params set_grad_enabled].
  rewrite Sb, Sa, Fb, Fa, Pb, Pa, Hc, Pa.
  unfold w0. rewrite <- (loader_iter_grad_switch loader false w). fold w0.
  rewrite Ea. cbn [fst w_stdout w_files w_params set_grad_enabled].
  repeat split; auto.
Qed.

(** C10. After every batch of the evaluation loop the counters satisfy
    [0 <= correct <= total]; hence, once [total > 0], the accuracy
    [100*correct/total] that would be printed lies in [0, 100]. *)
Theorem eval_counters_invariant :
  forall (loader : DataLoader) (pre post : list (list nat)) (w : world) (final : Z * Z),
    fst (eval_loop loader 0 (0, 0)%Z (pre ++ post) w) = Ok final ->
    exists correct total,
      fst (eval_loop loader 0 (0, 0)%Z pre w) = Ok (correct, total)
      /\ (0 <= correct <= total)%Z
      /\ ((0 < total)%Z ->
          exists q, true_div (100 * correct) total = Ok q
                    /\ (0 <= q)%Q /\ (q <= 100)%Q).
Proof.
  intros loader pre post w final. rewrite eval_loop_app. unfold bindM.
  destruct (eval_loop loader 0 (0, 0)%Z pre w) as [[[c t]|e] w1] eqn:E;
    [|discriminate].
  intros _. exists c, t. cbn [fst].
  apply eval_loop_ok in E as (-> & -> & B & _).
  split; [reflexivity|]. split; [lia|].
  intros Hpos. unfold true_div.
  destruct (Z.eqb_spec (0 + Z.of_nat (length (concat pre))) 0) as [E0|_]; [lia|].
  destruct (Z.ltb_spec (0 + Z.of_nat (length (concat pre))) 0) as [L|_]; [lia|].
  eexists. split; [reflexivity|].
  unfold Qle. cbn [Qnum Qden]. rewrite Z2Pos.id by lia. lia.
Qed.

(** C3. For the same parameters, the forward pass run under
    [torch.no_grad()] on the model in evaluation mode computes the same
    result -- same shape and elements, or the same exception -- as the
    forward pass run in any other state of the two switches, gradient
    tracking enabled included. *)
Theorem no_grad_forward_same_values :
  forall (w1 w2 : world) (images : tensor R),
    w_params w1 = w_params w2 ->
    values (fst (with_no_grad (model_call images) (set_training false w1)))
    = values (fst (model_call images w2)).
Proof.
  intros w1 w2 images E. unfold with_no_grad, model_call.
  cbn [fst set_training set_grad_enabled w_params w_training w_grad_enabled].
  rewrite E. apply forward_values. split; reflexivity.
Qed.

End EvaluationClaims.

(** ** The training loop *)

Section Training.
Context {R : Type} {SR : Scalar R} {TR : Torch R}.
Local Open Scope prog_scope.

(** *** Who writes the parameters *)

Lemma stepped_trans (p q r : Params R) :
  stepped p q -> stepped q r -> stepped p r.
Proof.
  intros Hpq Hqr. induction Hqr as [q|q r o g Hqr IH]; [assumption|].
  apply stepped_step. apply IH. assumption.
Qed.

Lemma steps_only_keeps {A : Type} (m : M world A) :
  keeps w_params m -> steps_only m.
Proof. intros K w. rewrite K. apply stepped_refl. Qed.

Lemma steps_only_bind {A B : Type} (m : M world A) (k : A -> M world B) :
  steps_only m -> (forall a, steps_only (k a)) -> steps_only (bindM m k).
Proof.
  intros Hm Hk w. unfold bindM. specialize (Hm w).
  destruct (m w) as [[a|e] w1]; cbn [snd] in *; [|assumption].
  eapply stepped_trans; [eassumption | apply Hk].
Qed.

Lemma steps_only_optimizer_step : steps_only optimizer_step.
Proof.
  intros w. unfold optimizer_step, modify. cbn [snd].
  destruct (w_grad w) as [g|]; [|apply stepped_refl].
  cbn [set_optim set_params w_params]. apply stepped_step, stepped_refl.
Qed.

Lemma steps_only_train_batch (loader : DataLoader) (e i : nat) (idx : list nat) :
  steps_only (train_batch loader e i idx).
Proof.
  unfold train_batch.
  apply steps_only_bind; [apply steps_only_keeps, keeps_lift|].
  intros [images labels].
  repeat (apply steps_only_bind;
          [apply steps_only_keeps;
           first [intros w; reflexivity | apply keeps_backward; intros; reflexivity]
          | intros ?]).
  apply steps_only_optimizer_step.
Qed.

Lemma steps_only_for_enumerate {A : Type} (body : nat -> A -> M world unit) :
  (forall i a, steps_only (body i a)) ->
  forall l i, steps_only (for_enumerate body i l).
Proof.
  intros Hb l. induction l as [|a l IH]; intros i; cbn [for_enumerate].
  - apply steps_only_keeps, keeps_ret.
  - apply steps_only_bind; [apply Hb | intros _; apply IH].
Qed.

Lemma steps_only_train_from (loader : DataLoader) (n : nat) :
  forall e, steps_only (train_from loader e n).
Proof.
  induction n as [|n IH]; intros e; cbn [train_from].
  - apply steps_only_keeps, keeps_ret.
  - apply steps_only_bind; [|intros _; apply IH].
    unfold train_epoch. apply steps_only_bind.
    + apply steps_only_keeps, keeps_loader_iter. intros; reflexivity.
    + intros batches. apply steps_only_for_enumerate.
      intros i idx. apply steps_only_train_batch.
Qed.

Lemma keeps_params_eval_block (loader : DataLoader) :
  keeps w_params (eval_block loader).
Proof.
  unfold eval_block. apply keeps_with_no_grad; [intros; reflexivity|].
  apply keeps_bind; [apply keeps_loader_iter; intros; reflexivity|].
  intros batches. apply keeps_bind.
  - apply keeps_eval_loop. intros e w. reflexivity.
  - intros ct. frame.
Qed.

(** C8. The parameters are written by [optimizer.step()] and by nothing
    else: the evaluation block and [model.eval()] leave them as they are,
    whatever their outcome; so does every statement of the training loop's
    body before the step (forward pass, loss, zero_grad, backward); and what
    training leaves in the parameters is reached from what it found there by
    Adam updates alone. *)
Theorem parameters_written_only_by_optimizer_step :
  (forall loader : DataLoader, keeps w_params (eval_block loader))
  /\ keeps w_params model_eval
  /\ (forall images : tensor R, keeps w_params (model_call images))
  /\ (forall (outputs : tensor R) (labels : list Z),
        keeps w_params (lift (CrossEntropyLoss outputs labels)))
  /\ keeps w_params zero_grad
  /\ (forall (outputs images : tensor R) (labels : list Z),
        keeps w_params (backward outputs images labels))
  /\ (forall (loader : DataLoader) (n : nat) (w : world),
        stepped (w_params w) (w_params (snd (train loader n w)))).
Proof.
  split; [exact keeps_params_eval_block|].
  split; [unfold model_eval; frame|].
  split; [intros images w; reflexivity|].
  split; [intros outputs labels w; reflexivity|].
  split; [intros w; reflexivity|].
  split; [intros outputs images labels; apply keeps_backward; intros; reflexivity|].
  intros loader n w. apply steps_only_train_from.
Qed.

(** *** The order of the calls *)

Lemma emits_eq {A : Type} (m : M world A) (s s' : list event) :
  emits m s -> s = s' -> emits m s'.
Proof. intros E <-. exact E. Qed.

Lemma emits_with_no_grad {A : Type} (body : M world A) (s : list event) :
  emits body s -> emits (with_no_grad body) s.
Proof.
  intros Hb w. unfold with_no_grad. cbn [fst snd].
  destruct (Hb (set_grad_enabled false w)) as (d & T & P & F).
  exists d. split; [exact T | split; assumption].
Qed.

Lemma train_epoch_emits (loader : DataLoader) (e : nat) :
  0 < batch_size loader ->
  emits (train_epoch loader e) (epoch_events (len_loader loader) e).
Proof.
  intros Hbs. unfold train_epoch, epoch_events.
  apply (emits_bind _ _ _ [] _
           (emits_silent _ (keeps_loader_iter w_trace loader (fun _ _ => eq_refl)))
           (loader_iter_returns loader Hbs)).
  intros batches [L _]. rewrite <- L. apply for_enumerate_emits.
  intros i idx. apply train_batch_emits.
Qed.

Lemma train_from_emits (loader : DataLoader) (n : nat) :
  0 < batch_size loader ->
  forall e, emits (train_from loader e n) (train_events (len_loader loader) e n).
Proof.
  intros Hbs. induction n as [|n IH]; intros e; cbn [train_from].
  - apply emits_silent, keeps_ret.
  - unfold train_events. cbn [seq flat_map].
    apply emits_seq; [apply train_epoch_emits; assumption | intros _; apply IH].
Qed.

Lemma eval_batch_emits (loader : DataLoader) (i : nat) (ct : Z * Z) (idx : list nat) :
  emits (eval_batch loader i ct idx) [EvalForward i].
Proof.
  unfold eval_batch.
  apply (emits_seq _ _ [] _); [apply emits_silent, keeps_lift|].
  intros [images labels].
  apply (emits_seq _ _ [_] []); [apply emits_emit|]. intros _.
  apply emits_silent. frame.
Qed.

Lemma eval_loop_emits (loader : DataLoader) (batches : list (list nat)) :
  forall i ct,
    emits (eval_loop loader i ct batches) (map EvalForward (seq i (length batches))).
Proof.
  induction batches as [|idx rest IH]; intros i ct; cbn [eval_loop length seq map].
  - apply emits_silent, keeps_ret.
  - apply (emits_seq _ _ [_] _); [apply eval_batch_emits | intros ct'; apply IH].
Qed.

Lemma eval_block_emits (loader : DataLoader) :
  0 < batch_size loader ->
  emits (eval_block loader) (eval_events (len_loader loader)).
Proof.
  intros Hbs. unfold eval_block, eval_events. apply emits_with_no_grad.
  apply (emits_bind _ _ _ [] _
           (emits_silent _ (keeps_loader_iter w_trace loader (fun _ _ => eq_refl)))
           (loader_iter_returns loader Hbs)).
  intros batches [L _]. rewrite <- L.
  apply emits_seq; [apply eval_loop_emits|]. intros ct.
  apply (emits_seq _ _ [] _); [apply emits_silent, keeps_lift|]. intros acc.
  apply (emits_seq _ _ [_] []); [apply emits_emit|]. intros _.
  apply emits_silent. frame.
Qed.

Lemma train_and_evaluate_emits (train_loader test_loader : DataLoader) (n : nat) :
  0 < batch_size train_loader ->
  0 < batch_size test_loader ->
  emits (train_and_evaluate train_loader test_loader n)
        (schedule (len_loader train_loader) (len_loader test_loader) n).
Proof.
  intros Htr Hte. unfold train_and_evaluate, schedule, train.
  apply emits_seq; [apply train_from_emits; assumption|]. intros _.
  apply emits_seq; [|intros _; apply eval_block_emits; assumption].
  unfold model_eval.
  apply (emits_seq _ _ [_] []); [apply emits_emit|]. intros _.
  apply keeps_trace_modify. intros; reflexivity.
Qed.


(** *** The setup cell *)

Lemma keeps_trace_MNIST_dataset (root : string) (train : bool) :
  keeps w_trace (MNIST_dataset root train).
Proof.
  intros w. unfold MNIST_dataset.
  destruct (download_MNIST root train (w_files w)) as [[files printed]|e]; reflexivity.
Qed.

Lemma keeps_trace_setup : keeps w_trace setup.
Proof.
  unfold setup, print.
  repeat first
    [ apply keeps_trace_MNIST_dataset | apply keeps_lift | apply keeps_ret
    | apply keeps_bind; [|intros]
    | apply keeps_modify; intros; reflexivity ].
Qed.

Lemma MNIST_dataset_returns (root : string) (train : bool) :
  returns (MNIST_dataset root train) (fun ds => ds = MNIST train).
Proof.
  intros w ds. unfold MNIST_dataset.
  destruct (download_MNIST root train (w_files w)) as [[files printed]|e];
    cbn [fst]; intros E; [injection E as <-; reflexivity | discriminate].
Qed.

Lemma DataLoader_init_inv (ds : list (image R * Z)) (bs : nat) (sh : bool)
      (dl : DataLoader (R := R)) :
  DataLoader_init ds bs sh = Ok dl ->
  dl = mkLoader ds bs sh /\ 0 < bs /\ (sh = true -> ds <> []).
Proof.
  unfold DataLoader_init.
  destruct (Nat.eqb_spec bs 0) as [E|NZ]; [discriminate|].
  destruct sh; cbn [andb].
  - destruct ds as [|s0 ds]; cbn [length Nat.eqb]; [discriminate|].
    intros E. injection E as <-. split; [reflexivity|].
    split; [lia | intros _; discriminate].
  - intros E. injection E as <-. split; [reflexivity|].
    split; [lia | discriminate].
Qed.

(** When the setup part of the third cell returns, it returns the two
    shuffling MNIST loaders with batches of four. *)
Lemma setup_returns :
  returns setup
          (fun ls => ls = (mkLoader (MNIST true) 4 true, mkLoader (MNIST false) 4 true)).
Proof.
  intros w ls. destruct (setup w) as [r w'] eqn:E. cbn [fst]. intros ->.
  unfold setup in E.
  apply bindM_ok in E as ([] & w1 & _ & E).
  apply bindM_ok in E as ([] & w2 & _ & E).
  apply bindM_ok in E as ([] & w3 & _ & E).
  apply bindM_ok in E as (tr & w4 & E4 & E).
  apply bindM_ok in E as (te & w5 & E5 & E).
  pose proof (MNIST_dataset_returns "./data" true w3 tr) as Htr.
  pose proof (MNIST_dataset_returns "./data" false w4 te) as Hte.
  rewrite E4 in Htr. rewrite E5 in Hte. specialize (Htr eq_refl). specialize (Hte eq_refl).
  subst tr te.
  apply bindM_ok in E as (l1 & w6 & E6 & E).
  apply bindM_ok in E as (l2 & w7 & E7 & E).
  unfold lift in E6, E7. injection E6 as E6 _. injection E7 as E7 _.
  apply DataLoader_init_inv in E6 as [-> _]. apply DataLoader_init_inv in E7 as [-> _].
  apply bindM_ok in E as ([] & w8 & _ & E).
  apply bindM_ok in E as ([] & w9 & _ & E).
  unfold ret in E. injection E as <- _. reflexivity.
Qed.

(** With the device there, both downloads going through and neither dataset
    empty, the setup part returns the two loaders, with fresh weights, no
    gradient and a fresh optimizer; it logs no call, and prints what the
    downloads print and then its two lines. *)
Lemma setup_spec (w : world) (files1 files2 : list string) (msgs1 msgs2 : list string) :
  to_device "cuda" = Ok tt ->
  download_MNIST "./data" true (w_files w) = Ok (files1, msgs1) ->
  download_MNIST "./data" false files1 = Ok (files2, msgs2) ->
  MNIST true <> [] -> MNIST false <> [] ->
  exists w',
    setup w = (Ok (mkLoader (MNIST true) 4 true, mkLoader (MNIST false) 4 true), w')
    /\ w_trace w' = w_trace w
    /\ w_params w' = fst (reset_parameters (w_gen w) num_classes)
    /\ w_grad w' = None
    /\ w_optim w' = Adam_init
    /\ w_gen w' = snd (reset_parameters (w_gen w) num_classes)
    /\ w_grad_enabled w' = w_grad_enabled w
    /\ w_files w' = files2
    /\ w_stdout w' = w_stdout w ++ map Library msgs1 ++ map Library msgs2
                     ++ [TrainBatches (len_loader (mkLoader (MNIST true) 4 true));
                         TestBatches (len_loader (mkLoader (MNIST false) 4 true))].
Proof.
  intros Hdev Hd1 Hd2 Ntr Nte.
  unfold setup, MNIST_dataset, DataLoader_init, print, bindM, modify, lift, ret.
  rewrite Hdev.
  cbn [fst snd set_gen set_training set_grad set_params set_optim
       w_files w_params w_grad w_training w_grad_enabled w_optim w_gen w_stdout w_trace].
  rewrite Hd1.
  cbn [fst snd w_files w_params w_grad w_training w_grad_enabled w_optim w_gen
       w_stdout w_trace].
  rewrite Hd2.
  cbn [fst snd w_files w_params w_grad w_training w_grad_enabled w_optim w_gen
       w_stdout w_trace Nat.eqb andb].
  destruct (MNIST true) as [|s1 l1] eqn:E1; [contradiction|].
  destruct (MNIST false) as [|s2 l2] eqn:E2; [contradiction|].
  cbn [length Nat.eqb fst snd].
  eexists. split; [reflexivity|].
  cbn [w_files w_params w_grad w_training w_grad_enabled w_optim w_gen w_stdout w_trace].
  repeat split. rewrite <- !app_assoc. reflexivity.
Qed.

(** The notebook itself: ten epochs over the MNIST training set in batches
    of four, then the accuracy pass over the test set in batches of four. *)
Corollary notebook_schedule :
  emits notebook
        (schedule ((length (MNIST true) + 4 - 1) / 4)
                  ((length (MNIST false) + 4 - 1) / 4) 10).
Proof.
  unfold notebook.
  apply (emits_bind _ _ _ [] _ (emits_silent _ keeps_trace_setup) setup_returns).
  intros ls ->.
  apply (train_and_evaluate_emits (mkLoader (MNIST true) 4 true)
           (mkLoader (MNIST false) 4 true) num_epoch); cbn; lia.
Qed.

End Training.

(** ** The random generator during training *)

Section Generator.
Context {R : Type} {SR : Scalar R} {TR : Torch R}.
Local Open Scope prog_scope.

Lemma keeps_gen_train_batch (loader : DataLoader) (e i : nat) (idx : list nat) :
  keeps w_gen (train_batch loader e i idx).
Proof.
  unfold train_batch. apply keeps_bind; [apply keeps_lift|].
  intros [images labels].
  repeat (apply keeps_bind;
          [first [intros w; reflexivity | apply keeps_backward; intros; reflexivity]
          | intros ?]).
  intros w. unfold optimizer_step, modify. cbn [snd].
  destruct (w_grad w); reflexivity.
Qed.

(** The generator after one epoch: one permutation further for a shuffling
    loader. *)
Lemma train_epoch_gen (loader : DataLoader) (e : nat) (w : world) :
  w_gen (snd (train_epoch loader e w))
  = if shuffle loader
    then snd (randperm (w_gen w) (length (dataset loader)))
    else w_gen w.
Proof.
  unfold train_epoch, bindM, loader_iter.
  destruct (shuffle loader); cbn [ret].
  - rewrite (keeps_for_enumerate w_gen _ (keeps_gen_train_batch loader e)).
    reflexivity.
  - rewrite (keeps_for_enumerate w_gen _ (keeps_gen_train_batch loader e)).
    reflexivity.
Qed.

End Generator.

(** ** The model on concrete inputs *)

(** A 3x3 kernel of ones with padding 1 sums every pixel's neighbourhood. *)
Example conv2d_neighbourhood_sums :
  conv2d false 1 1 3 1 1
         (parameter [1; 1; 3; 3] (repeat 1%Z 9)) (parameter [1] [10%Z])
         {| shape := [1; 1; 2; 3]; data := [1; 2; 3; 4; 5; 6]%Z; requires_grad := false |}
  = Ok {| shape := [1; 1; 2; 3];
          data := [22; 31; 26; 22; 31; 26]%Z;
          requires_grad := false |}.
Proof. reflexivity. Qed.

Example max_pool2d_windows :
  max_pool2d false 2 2
    {| shape := [1; 1; 3; 5];
       data := [1; 9; 2; 3; 0;
                4; 5; 8; 7; 0;
                6; 6; 6; 6; 6]%Z;
       requires_grad := false |}
  = Ok {| shape := [1; 1; 1; 2]; data := [9; 8]%Z; requires_grad := false |}.
Proof. reflexivity. Qed.

Example linear_rows :
  linear false 2 3 (parameter [3; 2] [1; 0; 0; 1; 1; 1]%Z) (parameter [3] [0; 0; 100]%Z)
         {| shape := [2; 2]; data := [5; 7; 1; 2]%Z; requires_grad := false |}
  = Ok {| shape := [2; 3]; data := [5; 7; 112; 1; 2; 103]%Z; requires_grad := false |}.
Proof. reflexivity. Qed.

Example reshape_empty_batch_raises :
  reshape_infer {| shape := [0; 32; 7; 7]; data := @nil Z; requires_grad := false |} 0
  = Raise RuntimeError.
Proof. reflexivity. Qed.

Example max_dim1_first_maximum :
  max_dim1 {| shape := [2; 3]; data := [1; 5; 5; 7; 0; 2]%Z; requires_grad := false |}
  = Ok {| shape := [2]; data := [1; 0]%Z; requires_grad := false |}.
Proof. reflexivity. Qed.

(** Along axis 1 of a 2 x 2 x 3 tensor the maxima are taken column by
    column of every 2 x 3 block, and the indices keep the other two axes. *)
Example max_dim1_three_axes :
  max_dim1 {| shape := [2; 2; 3];
              data := [1; 5; 2;  4; 0; 2;
                       7; 7; 7;  8; 6; 7]%Z;
              requires_grad := false |}
  = Ok {| shape := [2; 3]; data := [1; 0; 0; 1; 0; 0]%Z; requires_grad := false |}.
Proof. reflexivity. Qed.

(** A shuffling loader cannot be built over an empty dataset, nor any
    loader with batches of size 0. *)
Example DataLoader_init_refusals :
  DataLoader_init (@nil (image Z * Z)) 4 true = Raise ValueError
  /\ is_ok (DataLoader_init (@nil (image Z * Z)) 4 false) = true
  /\ DataLoader_init (toy_dataset true) 0 true = Raise ValueError.
Proof. repeat split. Qed.

Example batch_sampler_keeps_last :
  batch_sampler 4 (seq 0 10) = [[0; 1; 2; 3]; [4; 5; 6; 7]; [8; 9]].
Proof. reflexivity. Qed.

Example accuracy_of_notebook_run :
  true_div (100 * 9905) 10000 = Ok (Qmake 990500 10000).
Proof. reflexivity. Qed.

(** The setup cell on the toy library: one cache directory, the line of
    the first download, then the cell's own two lines. *)
Example setup_outputs :
  w_files (snd (setup toy_world)) = ["./data"%string]
  /\ w_stdout (snd (setup toy_world))
     = [Library "Downloading"; TrainBatches 1; TestBatches 1].
Proof. split; reflexivity. Qed.

(** ** Witnesses *)

Lemma no_grad_forward_same_values_witness :
  values (fst (with_no_grad (model_call (toy_batch 1 28 28)) (set_training false toy_world)))
  = values (fst (model_call (toy_batch 1 28 28) toy_world)).
Proof.
  apply (no_grad_forward_same_values toy_world toy_world).
  reflexivity.
Defined.


(** The toy run completes, its optimizer step has doubled the parameters,
    and its log is the schedule. *)
Example toy_run_schedule :
  let run := train_and_evaluate toy_train_loader toy_train_loader 1 toy_world in
  (fst run, fc1_bias (w_params (snd run)), w_trace (snd run))
  = (Ok (1, 1)%Z,
     repeat 6%Z 10,
     [TrainEv 0 0 SForward; TrainEv 0 0 SLoss; TrainEv 0 0 SZeroGrad;
      TrainEv 0 0 SBackward; TrainEv 0 0 SOptStep;
      EvalMode; EvalForward 0; EvalPrint]).
Proof. vm_compute. reflexivity. Qed.

Lemma eval_block_counts_witness :
  exists batches,
    fst (loader_iter toy_test_loader toy_world) = Ok batches
    /\ Permutation (concat batches) (seq 0 (length (dataset toy_test_loader)))
    /\ 2%Z = Z.of_nat (length (dataset toy_test_loader))
    /\ 1%Z = hits (w_params toy_world) toy_test_loader batches
    /\ w_stdout (snd (eval_block toy_test_loader toy_world))
       = w_stdout toy_world ++ [Acc (Qmake (100 * 1) (Z.to_pos 2))]
    /\ w_files (snd (eval_block toy_test_loader toy_world)) = w_files toy_world
    /\ w_params (snd (eval_block toy_test_loader toy_world)) = w_params toy_world.
Proof.
  apply (eval_block_counts toy_test_loader toy_world 1%Z 2%Z).
  - simpl. lia.
  - vm_compute. reflexivity.
Defined.

Lemma eval_counters_invariant_witness :
  exists correct total,
    fst (eval_loop toy_test_loader 0 (0, 0)%Z [[0]] toy_world) = Ok (correct, total)
    /\ (0 <= correct <= total)%Z
    /\ ((0 < total)%Z ->
        exists q, true_div (100 * correct) total = Ok q /\ (0 <= q)%Q /\ (q <= 100)%Q).
Proof.
  apply (eval_counters_invariant toy_test_loader [[0]] [[1]] toy_world (1, 2)%Z).
  vm_compute. reflexivity.
Defined.


(** * Further properties of the code *)

(** ** Shapes, buffers and exceptions of the layers *)

Section LayerData.
Context {R : Type} {SR : Scalar R}.

Lemma length_flat_map_const {A B : Type} (f : A -> list B) (l : list A) (k : nat) :
  (forall a, In a l -> length (f a) = k) ->
  length (flat_map f l) = length l * k.
Proof.
  induction l as [|a l IH]; intros Hk; [reflexivity|].
  cbn [flat_map length]. rewrite length_app, Hk by (left; reflexivity).
  rewrite IH by (intros b Hb; apply Hk; right; assumption). lia.
Qed.

Lemma numel_app (a b : list nat) : numel (a ++ b) = numel a * numel b.
Proof.
  induction a as [|n a IH].
  - cbn [app]. change (numel []) with 1. rewrite Nat.mul_1_l. reflexivity.
  - cbn [app]. change (numel (n :: a ++ b)) with (n * numel (a ++ b)).
    change (numel (n :: a)) with (n * numel a).
    rewrite IH. apply Nat.mul_assoc.
Qed.

Lemma numel_rev (a : list nat) : numel (rev a) = numel a.
Proof.
  induction a as [|n a IH]; [reflexivity|].
  cbn [rev]. rewrite numel_app, IH.
  change (numel [n]) with (n * 1). change (numel (n :: a)) with (n * numel a).
  rewrite Nat.mul_1_r. apply Nat.mul_comm.
Qed.

Lemma planes_length (N C H W : nat) (d : list R) :
  length (planes N C H W d) = N.
Proof. unfold planes. rewrite length_map. apply chunks_length. Qed.

Lemma planes_sample_length (N C H W : nat) (d : list R) (smp : list (list (list R))) :
  In smp (planes N C H W d) -> length smp = C.
Proof.
  unfold planes. intros Hin. apply in_map_iff in Hin as (s0 & <- & _).
  rewrite length_map. apply chunks_length.
Qed.

Lemma conv2d_data_length (cin cout k s p N H W : nat) (wd bd xd : list R) :
  length (conv2d_data cin cout k s p N H W wd bd xd)
  = N * (cout * (conv_out H k s p * conv_out W k s p)).
Proof.
  unfold conv2d_data. cbv zeta.
  rewrite length_flat_map_const
    with (k := cout * (conv_out H k s p * conv_out W k s p)).
  - rewrite length_map, planes_length. reflexivity.
  - intros xs _.
    rewrite length_flat_map_const with (k := conv_out H k s p * conv_out W k s p).
    + rewrite length_seq. reflexivity.
    + intros co _. cbv zeta.
      rewrite length_flat_map_const with (k := conv_out W k s p).
      * rewrite length_seq. reflexivity.
      * intros i _. rewrite length_map, length_seq. reflexivity.
Qed.

Lemma max_pool2d_data_length (k s N C H W : nat) (xd : list R) :
  length (max_pool2d_data k s N C H W xd)
  = N * (C * (pool_out H k s * pool_out W k s)).
Proof.
  unfold max_pool2d_data.
  rewrite length_flat_map_const with (k := C * (pool_out H k s * pool_out W k s)).
  - rewrite planes_length. reflexivity.
  - intros smp Hin.
    rewrite length_flat_map_const with (k := pool_out H k s * pool_out W k s).
    + rewrite (planes_sample_length _ _ _ _ _ _ Hin). reflexivity.
    + intros pl _.
      rewrite length_flat_map_const with (k := pool_out W k s).
      * rewrite length_seq. reflexivity.
      * intros i _. rewrite length_map, length_seq. reflexivity.
Qed.

Lemma linear_data_length (fin fout rows : nat) (wd bd xd : list R) :
  length (linear_data fin fout rows wd bd xd) = rows * fout.
Proof.
  unfold linear_data. cbv zeta.
  rewrite length_flat_map_const with (k := fout).
  - rewrite chunks_length. reflexivity.
  - intros row _. rewrite length_map, length_seq. reflexivity.
Qed.

Lemma linear_well_formed gm fin fout (w b x y : tensor R) :
  linear gm fin fout w b x = Ok y -> well_formed y.
Proof.
  unfold linear. destruct (rev (shape x)) as [|f lead]; [discriminate|].
  destruct (f =? fin); [|discriminate].
  intros E. injection E as <-. unfold well_formed. cbn [shape data].
  rewrite linear_data_length, numel_app, numel_rev.
  cbn [numel fold_right]. lia.
Qed.

(** X2. One convolution + ReLU + pooling block of the model (channel
    counts positive) accepts exactly the inputs that have its input channel
    count and planes of at least 2 x 2, be it a batch N x cin x H x W or one
    unbatched cin x H x W picture; what it returns has the block's output
    channels and both spatial extents halved (rounded down), behind the
    batch axis of the input if it has one. *)
Theorem block_accepts_iff :
  forall (md : mode) (cin cout : nat) (w b x : tensor R),
    0 < cin -> 0 < cout ->
    (is_ok (Sequential md [Conv2d cin cout 5 1 2 w b; ReLU; MaxPool2d 2 2] x) = true
     <-> (exists N H W, shape x = [N; cin; H; W] /\ 2 <= H /\ 2 <= W)
         \/ (exists H W, shape x = [cin; H; W] /\ 2 <= H /\ 2 <= W))
    /\ (forall y,
          Sequential md [Conv2d cin cout 5 1 2 w b; ReLU; MaxPool2d 2 2] x = Ok y ->
          (exists N H W, shape x = [N; cin; H; W] /\ shape y = [N; cout; H / 2; W / 2])
          \/ (exists H W, shape x = [cin; H; W] /\ shape y = [cout; H / 2; W / 2])).
Proof.
  intros md cin cout w b x Pin Pout. split; [split|].
  - destruct (Sequential md _ x) as [y|e] eqn:E; [|discriminate].
    intros _. apply block_inv in E as (lead & H & W & L & Hx & LH & LW & _).
    destruct (batch_axis_cases lead L) as [->|[N ->]]; cbn [app] in Hx.
    + right. exists H, W. auto.
    + left. exists N, H, W. auto.
  - intros [(N & H & W & Hx & LH & LW)|(H & W & Hx & LH & LW)].
    + destruct (block_ok md cin cout w b x [N] H W) as (y & -> & _);
        cbn [length app]; try assumption; try lia. reflexivity.
    + destruct (block_ok md cin cout w b x [] H W) as (y & -> & _);
        cbn [length app]; try assumption; try lia. reflexivity.
  - intros y E. apply block_inv in E as (lead & H & W & L & Hx & _ & _ & _ & Hy).
    destruct (batch_axis_cases lead L) as [->|[N ->]]; cbn [app] in Hx, Hy.
    + right. exists H, W. auto.
    + left. exists N, H, W. auto.
Qed.

(** Every exception of a layer is a RuntimeError. *)
Lemma call_raises_RuntimeError md (m : module R) (x : tensor R) (e : exn) :
  call md m x = Raise e -> e = RuntimeError.
Proof.
  destruct m as [cin cout k s p w b| |k s|fin fout w b]; cbn [call].
  - unfold conv2d.
    destruct (shape x) as [|a0 [|a1 [|a2 [|a3 [|? ?]]]]];
      repeat match goal with
             | |- context [if ?c then _ else _] => destruct c
             end;
      intros E; first [discriminate | injection E as <-; reflexivity].
  - discriminate.
  - unfold max_pool2d.
    destruct (shape x) as [|a0 [|a1 [|a2 [|a3 [|? ?]]]]];
      repeat match goal with
             | |- context [if ?c then _ else _] => destruct c
             end;
      intros E; first [discriminate | injection E as <-; reflexivity].
  - unfold linear. destruct (rev (shape x)) as [|f lead];
      [intros E; injection E as <-; reflexivity|].
    destruct (f =? fin); [discriminate | intros E; injection E as <-; reflexivity].
Qed.

Lemma Sequential_raises_RuntimeError md (ms : list (module R)) :
  forall (x : tensor R) (e : exn), Sequential md ms x = Raise e -> e = RuntimeError.
Proof.
  induction ms as [|m ms IH]; intros x e; cbn [Sequential]; [discriminate|].
  destruct (call md m x) as [y|e'] eqn:E; cbn [bind].
  - apply IH.
  - intros E'. injection E' as <-. exact (call_raises_RuntimeError _ _ _ _ E).
Qed.

Lemma forward_raise_kind md nc th (x : tensor R) (e : exn) :
  forward md (CNN_init nc th) x = Raise e -> e = RuntimeError.
Proof.
  unfold forward, CNN_init. cbn [layer1 layer2 fc1].
  destruct (Sequential md _ x) as [a|e1] eqn:Ea; cbn [bind].
  2:{ intros E. injection E as <-. exact (Sequential_raises_RuntimeError _ _ _ _ Ea). }
  destruct (Sequential md _ a) as [b|e2] eqn:Eb; cbn [bind].
  2:{ intros E. injection E as <-. exact (Sequential_raises_RuntimeError _ _ _ _ Eb). }
  apply block_inv in Eb as (lead & H & W & L & _ & _ & _ & _ & Hb).
  assert (Hn : exists n, size b 0 = Ok n).
  { unfold size. rewrite Hb.
    destruct (batch_axis_cases lead L) as [->|[N ->]]; eexists; reflexivity. }
  destruct Hn as (n & ->). cbn [bind].
  destruct (reshape_infer b n) as [f|e3] eqn:Ef; cbn [bind].
  2:{ intros E. injection E as <-. unfold reshape_infer in Ef.
      destruct (n =? 0); [injection Ef as <-; reflexivity|].
      destruct (_ =? 0); [discriminate | injection Ef as <-; reflexivity]. }
  apply call_raises_RuntimeError.
Qed.

(** X3. Whatever the input, the only exception the forward pass raises is
    a RuntimeError (torch's shape mismatch): [out.size(0)] is reached only
    on what the second block returns, which has an axis 0, so it never
    raises an IndexError. *)
Theorem forward_raises_only_RuntimeError :
  forall (md : mode) (nc : nat) (th : Params R) (x : tensor R) (e : exn),
    forward md (CNN_init nc th) x = Raise e -> e = RuntimeError.
Proof. exact forward_raise_kind. Qed.

Lemma forward_ok_full md nc th (x : tensor R) N H W :
  shape x = [N; 1; H; W] -> 1 <= N -> (H / 4) * (W / 4) = 49 ->
  exists y, forward md (CNN_init nc th) x = Ok y
            /\ shape y = [N; nc]
            /\ length (data y) = N * nc
            /\ requires_grad y = grad_enabled md.
Proof.
  intros Hx LN E49.
  destruct (forward_ok md nc th x N H W Hx LN E49) as (y & Ey & Hy).
  exists y. split; [exact Ey|]. split; [exact Hy|].
  unfold forward in Ey.
  destruct (Sequential md (layer1 (CNN_init nc th)) x) as [a|]; [|discriminate].
  cbn [bind] in Ey.
  destruct (Sequential md (layer2 (CNN_init nc th)) a) as [b|]; [|discriminate].
  cbn [bind] in Ey. destruct (size b 0) as [n|]; [|discriminate].
  cbn [bind] in Ey. destruct (reshape_infer b n) as [f|]; [|discriminate].
  cbn [bind CNN_init fc1 call] in Ey. split.
  - pose proof (linear_well_formed _ _ _ _ _ _ _ Ey) as Wf.
    unfold well_formed in Wf. rewrite Wf, Hy. cbn [numel fold_right]. lia.
  - unfold linear in Ey. destruct (rev (shape f)) as [|f0 lead]; [discriminate|].
    destruct (f0 =? 7 * 7 * 32); [|discriminate].
    injection Ey as <-. cbn [requires_grad parameter].
    rewrite orb_true_r, andb_true_r. reflexivity.
Qed.

(** X4. On every batch it accepts, the forward pass returns one row of
    [num_classes] scores per sample and nothing else: the output has shape
    N x num_classes and holds exactly N * num_classes elements, also when the
    input buffer is shorter or longer than its shape announces. *)
Theorem forward_output_well_formed :
  forall (md : mode) (nc : nat) (th : Params R) (x : tensor R) (N H W : nat),
    shape x = [N; 1; H; W] -> 1 <= N -> (H / 4) * (W / 4) = 49 ->
    exists y, forward md (CNN_init nc th) x = Ok y
              /\ shape y = [N; nc]
              /\ well_formed y
              /\ length (data y) = N * nc.
Proof.
  intros md nc th x N H W Hx LN E49.
  destruct (forward_ok_full md nc th x N H W Hx LN E49) as (y & Ey & Hy & L & _).
  exists y. repeat split; try assumption.
  unfold well_formed. rewrite L, Hy. cbn [numel fold_right]. lia.
Qed.

(** X5. The output of the model is attached to the autograd graph exactly
    when gradient tracking is on: under [torch.no_grad()] it never requires
    a gradient; with tracking enabled it always does, whether or not the
    input does (the parameters do). *)
Theorem forward_requires_grad :
  forall (md : mode) (nc : nat) (th : Params R) (x : tensor R) (N H W : nat),
    shape x = [N; 1; H; W] -> 1 <= N -> (H / 4) * (W / 4) = 49 ->
    exists y, forward md (CNN_init nc th) x = Ok y
              /\ requires_grad y = grad_enabled md.
Proof.
  intros md nc th x N H W Hx LN E49.
  destruct (forward_ok_full md nc th x N H W Hx LN E49) as (y & Ey & _ & _ & G).
  exists y. auto.
Qed.

End LayerData.

(** ** Batches of a loader *)

Section LoaderBatches.
Context {R : Type} {SR : Scalar R} {TR : Torch R}.
Local Open Scope prog_scope.

Lemma batched_nil (fuel bs : nat) : batched fuel bs [] = [].
Proof. destruct fuel; reflexivity. Qed.

Lemma batched_each (bs : nat) :
  0 < bs ->
  forall fuel idx, Forall (fun b => 1 <= length b <= bs) (batched fuel bs idx).
Proof.
  intros Hbs fuel. induction fuel as [|f IH]; intros idx; cbn [batched].
  - constructor.
  - destruct idx as [|a l]; constructor; [|apply IH].
    rewrite length_firstn. cbn [length]. lia.
Qed.

Lemma batched_full_before_last (bs fuel : nat) (idx b : list nat) (rest : list (list nat)) :
  batched fuel bs idx = b :: rest -> rest <> [] -> length b = bs.
Proof.
  destruct fuel as [|f]; cbn [batched]; [discriminate|].
  destruct idx as [|a l]; [discriminate|].
  intros E NE. injection E as <- <-.
  rewrite length_firstn. apply Nat.min_l.
  destruct (Nat.le_gt_cases bs (length (a :: l))) as [L|G]; [exact L|].
  exfalso. apply NE. rewrite skipn_all2 by lia. apply batched_nil.
Qed.

Lemma batched_sizes (bs : nat) :
  0 < bs ->
  forall init fuel idx last,
    batched fuel bs idx = init ++ [last] ->
    Forall (fun b => length b = bs) init /\ 1 <= length last <= bs.
Proof.
  intros Hbs init. induction init as [|b init IH]; intros fuel idx last E.
  - split; [constructor|].
    pose proof (batched_each bs Hbs fuel idx) as F. rewrite E in F.
    inversion F; subst. assumption.
  - cbn [app] in E.
    assert (Lb : length b = bs).
    { apply (batched_full_before_last bs fuel idx b (init ++ [last]) E).
      destruct init; discriminate. }
    destruct fuel as [|f]; cbn [batched] in E; [discriminate|].
    destruct idx as [|a l]; [discriminate|].
    injection E as _ E. apply IH in E as [F L].
    split; [constructor; assumption | exact L].
Qed.

(** X6. The batches of a loader with batch size [bs > 0] are full except
    possibly the last: every batch before the last has exactly [bs] indices,
    and the last one is kept ([drop_last=False]) with between 1 and [bs]. *)
Theorem batch_sampler_sizes :
  forall (bs : nat) (idx : list nat) (init : list (list nat)) (last : list nat),
    0 < bs ->
    batch_sampler bs idx = init ++ [last] ->
    Forall (fun b => length b = bs) init /\ 1 <= length last <= bs.
Proof.
  intros bs idx init last Hbs E. exact (batched_sizes bs Hbs init _ idx last E).
Qed.

Lemma loader_iter_ok (dl : DataLoader) (w : world) :
  exists batches, fst (loader_iter dl w) = Ok batches.
Proof. unfold loader_iter. destruct (shuffle dl); eexists; reflexivity. Qed.

Lemma loader_iter_sampled (dl : DataLoader) (w : world) (batches : list (list nat)) :
  fst (loader_iter dl w) = Ok batches ->
  exists l, batches = batch_sampler (batch_size dl) l
            /\ Permutation l (seq 0 (length (dataset dl))).
Proof.
  unfold loader_iter. destruct (shuffle dl); cbn [fst ret]; intros E; injection E as <-.
  - eexists. split; [reflexivity | apply randperm_spec].
  - eexists. split; [reflexivity | apply Permutation_refl].
Qed.

(** The batches of a pass are non-empty and index into the dataset. *)
Lemma loader_iter_good (dl : DataLoader) (w : world) (batches : list (list nat)) :
  0 < batch_size dl ->
  fst (loader_iter dl w) = Ok batches ->
  Forall (fun idx => idx <> [] /\ Forall (fun i => i < length (dataset dl)) idx) batches.
Proof.
  intros Hbs E. apply loader_iter_sampled in E as (l & -> & P).
  apply Forall_forall. intros idx Hin. split.
  - pose proof (batched_each (batch_size dl) Hbs (length l) l) as F.
    rewrite Forall_forall in F. specialize (F idx Hin).
    destruct idx; [simpl in F; lia | discriminate].
  - apply Forall_forall. intros i Hi.
    assert (Hc : In i (concat (batch_sampler (batch_size dl) l))).
    { apply in_concat. exists idx. split; assumption. }
    unfold batch_sampler in Hc. rewrite batched_concat in Hc by auto.
    apply (Permutation_in _ P) in Hc. apply in_seq in Hc. lia.
Qed.

(** X7. A pass over a loader with batch size [bs > 0] never raises and
    hands out [len(loader)] non-empty batches of at most [bs] indices that,
    laid end to end, are a permutation of [0 .. n-1]: every sample of the
    dataset is visited exactly once per epoch, shuffled or not. *)
Theorem loader_pass_partitions :
  forall (dl : DataLoader) (w : world),
    0 < batch_size dl ->
    exists batches,
      fst (loader_iter dl w) = Ok batches
      /\ length batches = len_loader dl
      /\ Forall (fun b => 1 <= length b <= batch_size dl) batches
      /\ Permutation (concat batches) (seq 0 (length (dataset dl))).
Proof.
  intros dl w Hbs. destruct (loader_iter_ok dl w) as (batches & E).
  exists batches. split; [exact E|].
  destruct (loader_iter_returns dl Hbs w batches E) as [L P].
  split; [exact L|]. split; [|exact P].
  apply loader_iter_sampled in E as (l & -> & _).
  apply batched_each. exact Hbs.
Qed.

Lemma getitem_ok (ds : list (image R * Z)) (i : nat) :
  i < length ds -> exists s, getitem ds i = Ok s /\ In s ds.
Proof.
  intros Hi. unfold getitem, sample. destruct (nth_error ds i) as [s|] eqn:En.
  - exists s. split; [reflexivity | eapply nth_error_In; eassumption].
  - apply nth_error_None in En. lia.
Qed.

Lemma mapM_getitem_ok (ds : list (image R * Z)) (idx : list nat) :
  Forall (fun i => i < length ds) idx ->
  exists smps, mapM (getitem ds) idx = Ok smps
               /\ length smps = length idx
               /\ Forall (fun s => In s ds) smps.
Proof.
  induction idx as [|i idx IH]; intros F.
  - exists []. repeat split. constructor.
  - inversion F as [|? ? Hi F']; subst.
    destruct (IH F') as (smps & E & L & A).
    destruct (getitem_ok ds i Hi) as (s & Es & Hs).
    exists (s :: smps). cbn [mapM]. rewrite Es. cbn [bind].
    rewrite E. cbn [bind length]. repeat split; [lia|].
    constructor; assumption.
Qed.

Lemma stack_ok (imgs : list (tensor R)) (sh : list nat) :
  imgs <> [] -> Forall (fun x => shape x = sh) imgs ->
  exists t, stack imgs = Ok t /\ shape t = length imgs :: sh.
Proof.
  intros NE F. unfold stack. destruct imgs as [|x rest]; [contradiction|].
  assert (Hx : shape x = sh) by (inversion F; assumption).
  assert (Hall : forallb (fun y => if list_eq_dec Nat.eq_dec (shape y) (shape x)
                                   then true else false) (x :: rest) = true).
  { apply forallb_forall. intros y Hy. rewrite Forall_forall in F.
    rewrite (F y Hy), Hx. destruct (list_eq_dec Nat.eq_dec sh sh); congruence. }
  rewrite Hall. eexists. split; [reflexivity|]. cbn [shape]. rewrite Hx. reflexivity.
Qed.

(** Fetching a non-empty batch of valid indices from a dataset of equally
    shaped images returns. *)
Lemma fetch_ok (dl : DataLoader) (idx : list nat) (sh : list nat) (P : Z -> Prop) :
  Forall (fun s : image R * Z => shape (image_tensor (fst s)) = sh) (dataset dl) ->
  Forall (fun s : image R * Z => P (snd s)) (dataset dl) ->
  idx <> [] -> Forall (fun i => i < length (dataset dl)) idx ->
  exists images labels,
    fetch dl idx = Ok (images, labels)
    /\ shape images = length idx :: sh
    /\ length labels = length idx
    /\ Forall P labels.
Proof.
  intros Fs Fp NE Fi. unfold fetch.
  destruct (mapM_getitem_ok (dataset dl) idx Fi) as (smps & E & L & A).
  rewrite E. cbn [bind].
  destruct (stack_ok (map (fun smp : image R * Z => image_tensor (fst smp)) smps) sh)
    as (t & Et & Ht).
  - destruct smps; [destruct idx; [contradiction | discriminate] | discriminate].
  - apply Forall_forall. intros x Hx. apply in_map_iff in Hx as (s & <- & Hs).
    rewrite Forall_forall in A, Fs. apply Fs, A, Hs.
  - rewrite Et. cbn [bind]. exists t, (map snd smps).
    rewrite length_map in Ht. rewrite Ht, length_map.
    split; [reflexivity|]. split; [f_equal; exact L|]. split; [exact L|].
    apply Forall_forall. intros l Hl. apply in_map_iff in Hl as (s & <- & Hs).
    rewrite Forall_forall in A, Fp. apply Fp, A, Hs.
Qed.

Lemma fetch_raise_kind (dl : DataLoader (R := R)) (idx : list nat) (e : exn) :
  Forall (fun i => i < length (dataset dl)) idx ->
  fetch dl idx = Raise e -> e = RuntimeError.
Proof.
  intros Fi. unfold fetch.
  destruct (mapM_getitem_ok (dataset dl) idx Fi) as (smps & -> & _).
  cbn [bind]. unfold stack.
  destruct smps as [|s0 rest]; cbn [map bind];
    [intros E; injection E as <-; reflexivity|].
  destruct (forallb _ _); cbn [bind];
    [discriminate | intros E; injection E as <-; reflexivity].
Qed.

End LoaderBatches.

(** ** Runs that complete, and how runs fail *)

Section Completion.
Context {R : Type} {SR : Scalar R} {TR : Torch R}.
Local Open Scope prog_scope.

Lemma chunks_row_length {A : Type} (count size : nat) (l : list A) (row : list A) :
  In row (chunks count size l) -> length row <= size.
Proof.
  revert l. induction count as [|c IH]; intros l; cbn [chunks]; [contradiction|].
  intros [<-|Hin]; [rewrite length_firstn; lia | eapply IH; eassumption].
Qed.

Lemma argmax_from_bound (row : list R) :
  forall (best : R) (besti i : nat),
    besti < i -> argmax_from best besti i row < i + length row.
Proof.
  induction row as [|v rest IH]; intros best besti i L; cbn [argmax_from length].
  - lia.
  - destruct (sle v best).
    + specialize (IH best besti (S i)). lia.
    + specialize (IH v i (S i)). lia.
Qed.

Lemma argmax_bound (row : list R) (c : nat) :
  0 < c -> length row <= c -> argmax row < c.
Proof.
  intros Hc L. destruct row as [|v rest]; cbn [argmax]; [exact Hc|].
  pose proof (argmax_from_bound rest v 0 1 Nat.lt_0_1). cbn [length] in L. lia.
Qed.

(** X8. [torch.max(x, 1)] returns exactly on the tensors that have at
    least two axes and a non-empty axis 1, and raises an IndexError on every
    other.  On shape d0 x d1 x rest it returns an index tensor of shape
    d0 x rest with as many elements, each between 0 and [d1 - 1]: for the
    N x 10 scores of the model, one column index per row, so that a label
    outside 0..9 can never be counted as correct. *)
Theorem predictions_in_range :
  forall (x : tensor R),
    match max_dim1 x with
    | Ok predicted =>
        exists d0 d1 rest,
          shape x = d0 :: d1 :: rest /\ 0 < d1
          /\ shape predicted = d0 :: rest
          /\ length (data predicted) = numel (d0 :: rest)
          /\ Forall (fun p => (0 <= p < Z.of_nat d1)%Z) (data predicted)
    | Raise e =>
        e = IndexError /\ (length (shape x) < 2 \/ nth 1 (shape x) 0 = 0)
    end.
Proof.
  intros x. unfold max_dim1.
  destruct (shape x) as [|d0 [|d1 rest]];
    [split; [reflexivity | left; cbn; lia]..|].
  destruct (Nat.eqb_spec d1 0) as [E0|NZ]; [split; [reflexivity | right; exact E0]|].
  exists d0, d1, rest. split; [reflexivity|]. split; [lia|].
  split; [reflexivity|]. cbn [data]. split.
  - rewrite length_flat_map_const with (k := numel rest).
    + rewrite chunks_length. reflexivity.
    + intros block _. rewrite length_map, length_seq. reflexivity.
  - apply Forall_forall. intros p Hp.
    apply in_flat_map in Hp as (block & _ & Hp).
    apply in_map_iff in Hp as (r & <- & _).
    assert (argmax (map (fun row : list R => nth r row szero)
                        (chunks d1 (numel rest) block)) < d1); [|lia].
    apply argmax_bound; [lia|]. rewrite length_map, chunks_length. lia.
Qed.

(** One pass of the evaluation loop body returns on a batch of accepted
    images. *)
Lemma eval_batch_completes (loader : DataLoader) (H W : nat) (i : nat) (ct : Z * Z)
      (idx : list nat) (w : world) :
  images_are H W (dataset loader) -> (H / 4) * (W / 4) = 49 ->
  idx <> [] -> Forall (fun j => j < length (dataset loader)) idx ->
  exists ct' w', eval_batch loader i ct idx w = (Ok ct', w').
Proof.
  intros Fs E49 NE Fi.
  destruct (fetch_ok loader idx [1; H; W] (fun _ => True) Fs) as
      (images & labels & Ef & Hs & Ll & _); auto.
  { apply Forall_forall. intros; exact I. }
  unfold eval_batch, bindM, lift. rewrite Ef.
  unfold emit, modify, model_call.
  cbn [fst snd w_params w_grad_enabled w_training].
  assert (LN : 1 <= length idx) by (destruct idx; [contradiction | cbn; lia]).
  destruct (forward_ok (mkMode (w_grad_enabled w) (w_training w)) num_classes
              (w_params w) images (length idx) H W Hs LN E49) as (y & -> & Hy).
  destruct (max_dim1_rows y (length idx) num_classes Hy) as (p & -> & Sp & Lp);
    [discriminate|].
  rewrite <- Ll in Sp, Lp. cbn [fst snd].
  rewrite (eq_broadcast_rows p labels Sp Lp).
  unfold ret. eexists. eexists. reflexivity.
Qed.

Lemma eval_loop_completes (loader : DataLoader) (H W : nat) (batches : list (list nat)) :
  images_are H W (dataset loader) -> (H / 4) * (W / 4) = 49 ->
  Forall (fun idx => idx <> [] /\ Forall (fun j => j < length (dataset loader)) idx)
         batches ->
  forall (i : nat) (ct : Z * Z) (w : world),
    exists ct' w', eval_loop loader i ct batches w = (Ok ct', w').
Proof.
  intros Fs E49 Fb. induction Fb as [|idx rest [NE Fi] _ IH]; intros i ct w.
  - exists ct, w. reflexivity.
  - cbn [eval_loop]. unfold bindM.
    destruct (eval_batch_completes loader H W i ct idx w Fs E49 NE Fi)
      as (ct1 & w1 & ->).
    apply IH.
Qed.

(** What the evaluation block does on a non-empty set of accepted images. *)
Lemma eval_block_success (loader : DataLoader) (H W : nat) (w : world) :
  0 < batch_size loader -> dataset loader <> [] ->
  images_are H W (dataset loader) -> (H / 4) * (W / 4) = 49 ->
  exists correct,
    fst (eval_block loader w) = Ok (correct, Z.of_nat (length (dataset loader)))
    /\ (0 <= correct <= Z.of_nat (length (dataset loader)))%Z
    /\ w_stdout (snd (eval_block loader w))
       = w_stdout w
         ++ [Acc (Qmake (100 * correct)
                        (Z.to_pos (Z.of_nat (length (dataset loader)))))].
Proof.
  intros Hbs NE Fs E49. unfold eval_block, with_no_grad. cbn [fst snd].
  set (w0 := set_grad_enabled false w).
  match goal with |- context [fst (?b w0)] => set (body := b) end.
  assert (Hbody : exists correct w',
             body w0 = (Ok (correct, Z.of_nat (length (dataset loader))), w')
             /\ (0 <= correct <= Z.of_nat (length (dataset loader)))%Z
             /\ w_stdout w'
                = w_stdout w0
                  ++ [Acc (Qmake (100 * correct)
                                 (Z.to_pos (Z.of_nat (length (dataset loader)))))]).
  { unfold body. unfold bindM at 1.
    destruct (loader_iter loader w0) as [[batches|e] wa] eqn:Ea.
    2:{ destruct (loader_iter_ok loader w0) as (b & Eb). rewrite Ea in Eb. discriminate. }
    pose proof (loader_iter_returns loader Hbs w0 batches) as Ret.
    pose proof (loader_iter_good loader w0 batches Hbs) as Good.
    pose proof (keeps_loader_iter w_stdout loader (fun _ _ => eq_refl) w0) as Sa.
    rewrite Ea in Ret, Good, Sa. cbn [fst snd] in Ret, Good, Sa.
    destruct (Ret eq_refl) as [_ Perm]. specialize (Good eq_refl).
    unfold bindM at 1.
    destruct (eval_loop_completes loader H W batches Fs E49 Good 0 (0, 0)%Z wa)
      as ([c t] & wb & Eb).
    rewrite Eb.
    pose proof (keeps_eval_loop w_stdout loader
                  (fun e w1 => eq_refl) batches 0 (0, 0)%Z wa) as Sb.
    rewrite Eb in Sb. cbn [snd] in Sb.
    apply eval_loop_ok in Eb as (Ht & Hc & B & _).
    rewrite (Permutation_length Perm), length_seq in Ht, B. simpl in Ht, Hc.
    subst t c.
    assert (Hpos : (0 < Z.of_nat (length (dataset loader)))%Z).
    { destruct (dataset loader); [contradiction | cbn [length]; lia]. }
    unfold bindM, lift, emit, print, modify, ret, true_div. cbn [fst snd].
    destruct (Z.eqb_spec (Z.of_nat (length (dataset loader))) 0) as [E0|_]; [lia|].
    destruct (Z.ltb_spec (Z.of_nat (length (dataset loader))) 0) as [L|_]; [lia|].
    eexists. eexists. split; [reflexivity|]. split; [exact B|].
    cbn [w_stdout]. rewrite Sb, Sa. reflexivity. }
  destruct Hbody as (correct & w' & -> & B & S).
  exists correct. cbn [fst snd w_stdout set_grad_enabled].
  split; [reflexivity|]. split; [exact B|]. exact S.
Qed.

(** X9. On a non-empty test set of single-channel images of an accepted
    size (28 x 28 for MNIST), iterated in batches of any positive size, the
    evaluation block runs to completion whatever the parameters: it returns
    [total] = the number of test samples and [0 <= correct <= total], and
    prints the one accuracy line. *)
Theorem eval_block_completes :
  forall (loader : DataLoader) (H W : nat) (w : world),
    0 < batch_size loader ->
    dataset loader <> [] ->
    images_are H W (dataset loader) ->
    (H / 4) * (W / 4) = 49 ->
    exists correct,
      fst (eval_block loader w) = Ok (correct, Z.of_nat (length (dataset loader)))
      /\ (0 <= correct <= Z.of_nat (length (dataset loader)))%Z
      /\ w_stdout (snd (eval_block loader w))
         = w_stdout w
           ++ [Acc (Qmake (100 * correct)
                          (Z.to_pos (Z.of_nat (length (dataset loader)))))].
Proof. exact eval_block_success. Qed.

(** The loop body can only fail with a RuntimeError. *)
Lemma eval_batch_raise_kind (loader : DataLoader) (i : nat) (ct : Z * Z)
      (idx : list nat) (w w' : world) (e : exn) :
  Forall (fun j => j < length (dataset loader)) idx ->
  eval_batch loader i ct idx w = (Raise e, w') -> e = RuntimeError.
Proof.
  intros Fi. unfold eval_batch, bindM, lift.
  destruct (fetch loader idx) as [[images labels]|e0] eqn:Ef.
  2:{ intros E. injection E as <- _. exact (fetch_raise_kind _ _ _ Fi Ef). }
  unfold emit, modify, model_call.
  cbn [fst snd w_params w_grad_enabled w_training].
  destruct (forward _ _ images) as [y|e1] eqn:Ey.
  2:{ intros E. injection E as <- _. exact (forward_raise_kind _ _ _ _ _ Ey). }
  destruct (fetch_lengths loader idx images labels Ef) as [Ll _].
  destruct (fetch_shape loader idx images labels Ef) as (c0 & h0 & w0 & Hi).
  apply forward_inv in Ey as [(N & H & W & Hx & _ & _ & Hy)|(H & W & Hx & _)];
    [|rewrite Hx in Hi; discriminate].
  rewrite Hx in Hi. injection Hi as -> _ _ _.
  destruct (max_dim1_rows y (length idx) num_classes Hy) as (p & -> & Sp & Lp);
    [discriminate|].
  rewrite <- Ll in Sp, Lp. cbn [fst snd].
  rewrite (eq_broadcast_rows p labels Sp Lp).
  unfold ret. discriminate.
Qed.

Lemma eval_loop_raise_kind (loader : DataLoader) (batches : list (list nat)) :
  Forall (fun idx => Forall (fun j => j < length (dataset loader)) idx) batches ->
  forall (i : nat) (ct : Z * Z) (w w' : world) (e : exn),
    eval_loop loader i ct batches w = (Raise e, w') -> e = RuntimeError.
Proof.
  intros Fb. induction Fb as [|idx rest Fi _ IH]; intros i ct w w' e; cbn [eval_loop].
  - discriminate.
  - unfold bindM.
    destruct (eval_batch loader i ct idx w) as [[ct1|e1] w1] eqn:E1.
    + apply IH.
    + intros E. injection E as <- _. exact (eval_batch_raise_kind _ _ _ _ _ _ _ Fi E1).
Qed.

(** X10. The evaluation block fails in two ways only: with a RuntimeError
    (images that cannot be stacked or that the model rejects), or with a
    ZeroDivisionError, and the latter only when the test set is empty.  It
    never raises an IndexError: the sampler only hands out valid indices. *)
Theorem eval_block_failures :
  forall (loader : DataLoader) (w : world) (e : exn),
    0 < batch_size loader ->
    fst (eval_block loader w) = Raise e ->
    e = RuntimeError \/ (e = ZeroDivisionError /\ dataset loader = []).
Proof.
  intros loader w e Hbs. unfold eval_block, with_no_grad. cbn [fst snd].
  set (w0 := set_grad_enabled false w).
  unfold bindM at 1.
  destruct (loader_iter loader w0) as [[batches|e0] wa] eqn:Ea.
  2:{ destruct (loader_iter_ok loader w0) as (b & Eb). rewrite Ea in Eb. discriminate. }
  pose proof (loader_iter_returns loader Hbs w0 batches) as Ret.
  pose proof (loader_iter_good loader w0 batches Hbs) as Good.
  rewrite Ea in Ret, Good. cbn [fst] in Ret, Good.
  destruct (Ret eq_refl) as [_ Perm]. specialize (Good eq_refl).
  unfold bindM at 1.
  destruct (eval_loop loader 0 (0, 0)%Z batches wa) as [[[c t]|e1] wb] eqn:Eb.
  2:{ cbn [fst]. intros E. injection E as <-. left.
      apply (eval_loop_raise_kind loader batches) in Eb; [exact Eb|].
      eapply Forall_impl; [|exact Good]. intros idx [_ F]. exact F. }
  apply eval_loop_ok in Eb as (Ht & _ & _ & _).
  rewrite (Permutation_length Perm), length_seq in Ht. simpl in Ht. subst t.
  unfold bindM, lift, emit, print, modify, ret, true_div. cbn [fst snd].
  destruct (Z.eqb_spec (Z.of_nat (length (dataset loader))) 0) as [E0|NZ].
  - cbn [fst]. intros E. injection E as <-. right. split; [reflexivity|].
    destruct (dataset loader); [reflexivity | cbn [length] in E0; lia].
  - destruct (Z.ltb_spec (Z.of_nat (length (dataset loader))) 0) as [L|_]; [lia|].
    cbn [fst]. discriminate.
Qed.

Lemma bindM_lift_Ok {A B : Type} (a : A) (k : A -> M world B) (w : world) :
  bindM (lift (Ok a)) k w = k a w.
Proof. reflexivity. Qed.

Lemma bindM_modify {B : Type} (f : world -> world) (k : unit -> M world B) (w : world) :
  bindM (modify f) k w = k tt (f w).
Proof. reflexivity. Qed.

Lemma bindM_model_call {B : Type} (images y : tensor R) (k : tensor R -> M world B)
      (w : world) :
  forward (mkMode (w_grad_enabled w) (w_training w))
          (CNN_init num_classes (w_params w)) images = Ok y ->
  bindM (model_call images) k w = k y w.
Proof. intros E. unfold bindM, model_call. rewrite E. reflexivity. Qed.

(** One training iteration on a batch of accepted images with labels the
    loss accepts: it returns when gradient tracking is on; when it is off,
    the output of the model is detached and [loss.backward()] raises. *)
Lemma train_batch_outcome (loader : DataLoader) (H W : nat) (e i : nat)
      (idx : list nat) (w : world) :
  loss_accepts ->
  images_are H W (dataset loader) -> labels_in_range (dataset loader) ->
  (H / 4) * (W / 4) = 49 ->
  idx <> [] -> Forall (fun j => j < length (dataset loader)) idx ->
  exists w', train_batch loader e i idx w
             = (if w_grad_enabled w then Ok tt else Raise RuntimeError, w').
Proof.
  intros La Fs Fl E49 NE Fi.
  destruct (fetch_ok loader idx [1; H; W]
              (fun l => (0 <= l < Z.of_nat num_classes)%Z) Fs Fl NE Fi)
    as (images & labels & Ef & Hs & Ll & Fr).
  assert (LN : 1 <= length idx) by (destruct idx; [contradiction | cbn; lia]).
  unfold train_batch. rewrite Ef, bindM_lift_Ok.
  unfold emit, zero_grad, optimizer_step.
  rewrite bindM_modify.
  match goal with |- exists w', bindM _ _ ?u = _ =>
    assert (G1 : w_grad_enabled u = w_grad_enabled w) by reflexivity;
    revert G1; generalize u; intros w1 G1 end.
  destruct (forward_ok_full (mkMode (w_grad_enabled w1) (w_training w1)) num_classes
              (w_params w1) images (length idx) H W Hs LN E49)
    as (y & Ey & Hy & _ & Gy).
  cbn [grad_enabled] in Gy. rewrite G1 in Gy.
  rewrite (bindM_model_call images y _ w1 Ey).
  rewrite <- Ll in Hy. specialize (La y labels Hy Fr).
  destruct (CrossEntropyLoss y labels) as [loss|]; [|discriminate].
  rewrite bindM_modify, bindM_lift_Ok.
  match goal with |- exists w', bindM _ _ ?u = _ => generalize u; intros w2 end.
  rewrite bindM_modify.
  match goal with |- exists w', bindM _ _ ?u = _ => generalize u; intros w3 end.
  rewrite bindM_modify.
  match goal with |- exists w', bindM _ _ ?u = _ => generalize u; intros w4 end.
  rewrite bindM_modify.
  match goal with |- exists w', bindM _ _ ?u = _ => generalize u; intros w5 end.
  unfold backward. rewrite Gy.
  destruct (w_grad_enabled w); [|eexists; reflexivity].
  rewrite bindM_modify.
  match goal with |- exists w', bindM _ _ ?u = _ => generalize u; intros w6 end.
  rewrite bindM_modify.
  eexists. reflexivity.
Qed.

(** A training iteration leaves alone every component of the state that
    the gradient, parameter and optimizer updates and the call log do not
    reach. *)
Lemma keeps_train_batch {X : Type} (f : world -> X) (loader : DataLoader)
      (e i : nat) (idx : list nat) :
  (forall ev w, f (snd (emit ev w)) = f w) ->
  (forall g w, f (set_grad g w) = f w) ->
  (forall p w, f (set_params p w) = f w) ->
  (forall o w, f (set_optim o w) = f w) ->
  keeps f (train_batch loader e i idx).
Proof.
  intros He Hg Hp Ho.
  unfold train_batch. apply keeps_bind; [apply keeps_lift|].
  intros [images labels].
  apply keeps_bind; [intros w; apply He|]. intros _.
  apply keeps_bind; [apply keeps_model_call|]. intros outputs.
  apply keeps_bind; [intros w; apply He|]. intros _.
  apply keeps_bind; [apply keeps_lift|]. intros loss.
  apply keeps_bind; [intros w; apply He|]. intros _.
  apply keeps_bind; [apply keeps_modify; intros w; apply Hg|]. intros _.
  apply keeps_bind; [intros w; apply He|]. intros _.
  apply keeps_bind; [apply keeps_backward; exact Hg|]. intros _.
  apply keeps_bind; [intros w; apply He|]. intros _.
  apply keeps_modify. intros w. destruct (w_grad w); [|reflexivity].
  rewrite Ho, Hp. reflexivity.
Qed.

Lemma for_enumerate_completes {A : Type} (body : nat -> A -> M world unit)
      (P : A -> Prop) (Inv : world -> Prop) :
  (forall i a w, P a -> Inv w -> exists w', body i a w = (Ok tt, w') /\ Inv w') ->
  forall l, Forall P l ->
    forall i w, Inv w -> exists w', for_enumerate body i l w = (Ok tt, w') /\ Inv w'.
Proof.
  intros Hb l F. induction F as [|a l Pa _ IH]; intros i w Iw; cbn [for_enumerate].
  - exists w. split; [reflexivity | exact Iw].
  - unfold bindM. destruct (Hb i a w Pa Iw) as (w1 & -> & I1). apply IH. exact I1.
Qed.

Lemma train_batch_completes (loader : DataLoader) (H W : nat) (e i : nat)
      (idx : list nat) (w : world) :
  loss_accepts ->
  images_are H W (dataset loader) -> labels_in_range (dataset loader) ->
  (H / 4) * (W / 4) = 49 ->
  idx <> [] /\ Forall (fun j => j < length (dataset loader)) idx ->
  w_grad_enabled w = true ->
  exists w', train_batch loader e i idx w = (Ok tt, w') /\ w_grad_enabled w' = true.
Proof.
  intros La Fs Fl E49 [NE Fi] G.
  destruct (train_batch_outcome loader H W e i idx w La Fs Fl E49 NE Fi) as (w' & E).
  rewrite G in E. exists w'. split; [exact E|].
  rewrite <- G.
  pose proof (keeps_train_batch w_grad_enabled loader e i idx
                (fun _ _ => eq_refl) (fun _ _ => eq_refl)
                (fun _ _ => eq_refl) (fun _ _ => eq_refl) w) as K.
  rewrite E in K. exact K.
Qed.

Lemma train_from_completes (loader : DataLoader) (H W : nat) :
  loss_accepts -> 0 < batch_size loader ->
  images_are H W (dataset loader) -> labels_in_range (dataset loader) ->
  (H / 4) * (W / 4) = 49 ->
  forall (n e : nat) (w : world),
    w_grad_enabled w = true ->
    exists w', train_from loader e n w = (Ok tt, w').
Proof.
  intros La Hbs Fs Fl E49 n. induction n as [|n IH]; intros e w G; cbn [train_from].
  - exists w. reflexivity.
  - unfold bindM at 1. unfold train_epoch. unfold bindM at 1.
    destruct (loader_iter loader w) as [[batches|e0] wa] eqn:Ea.
    2:{ destruct (loader_iter_ok loader w) as (b & Eb). rewrite Ea in Eb. discriminate. }
    pose proof (loader_iter_good loader w batches Hbs) as Good.
    pose proof (keeps_loader_iter w_grad_enabled loader (fun _ _ => eq_refl) w) as Ga.
    rewrite Ea in Good, Ga. specialize (Good eq_refl). cbn [snd] in Ga.
    rewrite G in Ga.
    destruct (for_enumerate_completes (train_batch loader e)
                (fun idx => idx <> [] /\ Forall (fun j => j < length (dataset loader)) idx)
                (fun w0 => w_grad_enabled w0 = true)
                (fun i idx w0 => train_batch_completes loader H W e i idx w0 La Fs Fl E49)
                batches Good 0 wa Ga) as (wb & -> & Gb).
    apply IH. exact Gb.
Qed.

(** With gradient tracking off, the first iteration of training already
    fails. *)
Lemma train_from_detached (loader : DataLoader) (H W : nat) (n e : nat) (w : world) :
  loss_accepts -> 0 < batch_size loader ->
  images_are H W (dataset loader) -> labels_in_range (dataset loader) ->
  (H / 4) * (W / 4) = 49 ->
  w_grad_enabled w = false -> dataset loader <> [] ->
  fst (train_from loader e (S n) w) = Raise RuntimeError.
Proof.
  intros La Hbs Fs Fl E49 G NE. cbn [train_from].
  unfold bindM at 1. unfold train_epoch. unfold bindM at 1.
  destruct (loader_iter loader w) as [[batches|e0] wa] eqn:Ea.
  2:{ destruct (loader_iter_ok loader w) as (b & Eb). rewrite Ea in Eb. discriminate. }
  pose proof (loader_iter_good loader w batches Hbs) as Good.
  pose proof (loader_iter_returns loader Hbs w batches) as Ret.
  pose proof (keeps_loader_iter w_grad_enabled loader (fun _ _ => eq_refl) w) as Ga.
  rewrite Ea in Good, Ret, Ga. specialize (Good eq_refl).
  destruct (Ret eq_refl) as [_ Perm]. cbn [snd] in Ga. rewrite G in Ga.
  destruct batches as [|idx rest].
  { apply Permutation_length in Perm. rewrite length_seq in Perm.
    destruct (dataset loader); [contradiction | discriminate]. }
  inversion Good as [|? ? [NEi Fi] _]; subst.
  cbn [for_enumerate]. unfold bindM at 1.
  destruct (train_batch_outcome loader H W e 0 idx wa La Fs Fl E49 NEi Fi) as (wb & ->).
  rewrite Ga. reflexivity.
Qed.

(** X11. On a training set of single-channel images of an accepted size
    whose labels are class indices, and with a loss that returns on one row
    of scores per in-range label, training runs to completion for any number
    of epochs and from any parameters as long as gradient tracking is on (an
    empty training set is fine); with tracking off, the output of the model
    is detached from the graph and the first [loss.backward()] raises a
    RuntimeError. *)
Theorem train_completes :
  forall (loader : DataLoader) (H W n : nat) (w : world),
    loss_accepts ->
    0 < batch_size loader ->
    images_are H W (dataset loader) ->
    labels_in_range (dataset loader) ->
    (H / 4) * (W / 4) = 49 ->
    (w_grad_enabled w = true -> fst (train loader n w) = Ok tt)
    /\ (w_grad_enabled w = false -> dataset loader <> [] -> 0 < n ->
        fst (train loader n w) = Raise RuntimeError).
Proof.
  intros loader H W n w La Hbs Fs Fl E49. unfold train. split.
  - intros G.
    destruct (train_from_completes loader H W La Hbs Fs Fl E49 n 0 w G) as (w' & ->).
    reflexivity.
  - intros G NE Hn. destruct n as [|n]; [lia|].
    apply (train_from_detached loader H W n 0 w); assumption.
Qed.

End Completion.

(** ** What training and evaluation leave alone *)

Section Frames.
Context {R : Type} {SR : Scalar R} {TR : Torch R}.
Local Open Scope prog_scope.

(** Training leaves alone every component of the state that the gradient,
    parameter, optimizer and generator updates and the call log do not
    reach. *)
Lemma keeps_train_from {X : Type} (f : world -> X) (loader : DataLoader) :
  (forall e w, f (snd (emit e w)) = f w) ->
  (forall g w, f (set_grad g w) = f w) ->
  (forall p w, f (set_params p w) = f w) ->
  (forall o w, f (set_optim o w) = f w) ->
  (forall g w, f (set_gen g w) = f w) ->
  forall n e, keeps f (train_from loader e n).
Proof.
  intros He Hg Hp Ho Hn n. induction n as [|n IH]; intros e; cbn [train_from].
  - apply keeps_ret.
  - apply keeps_bind; [|intros _; apply IH].
    unfold train_epoch. apply keeps_bind; [apply keeps_loader_iter, Hn|].
    intros batches. apply keeps_for_enumerate. intros i idx.
    apply keeps_train_batch; assumption.
Qed.

(** X12. The training loop prints nothing, writes no file, and touches
    neither the model's training flag nor the autograd switch, whatever
    happens in it: it is silent, and it needs no [model.train()] or
    [enable_grad] afterwards. *)
Theorem train_is_silent :
  forall (loader : DataLoader) (n : nat) (w : world),
    w_stdout (snd (train loader n w)) = w_stdout w
    /\ w_files (snd (train loader n w)) = w_files w
    /\ w_training (snd (train loader n w)) = w_training w
    /\ w_grad_enabled (snd (train loader n w)) = w_grad_enabled w.
Proof.
  intros loader n w. unfold train.
  repeat split; apply keeps_train_from; intros; reflexivity.
Qed.

Lemma keeps_eval_body {X : Type} (f : world -> X) (loader : DataLoader) :
  (forall e w, f (snd (emit e w)) = f w) ->
  (forall l w, f (snd (print l w)) = f w) ->
  (forall g w, f (set_gen g w) = f w) ->
  (forall b w, f (set_grad_enabled b w) = f w) ->
  keeps f (eval_block loader).
Proof.
  intros He Hp Hn Hb. unfold eval_block. apply keeps_with_no_grad; [exact Hb|].
  apply keeps_bind; [apply keeps_loader_iter, Hn|]. intros batches.
  apply keeps_bind; [apply keeps_eval_loop; intros e w; apply He|]. intros ct.
  apply keeps_bind; [apply keeps_lift|]. intros acc.
  apply keeps_bind; [intros w; apply He|]. intros _.
  apply keeps_bind; [intros w; apply Hp | intros _; apply keeps_ret].
Qed.

(** X13. The evaluation block restores the autograd switch it cleared,
    whether it returns or raises, and leaves the training flag, the
    gradients and the optimizer alone; when it raises, nothing has been
    printed. *)
Theorem eval_block_restores :
  forall (loader : DataLoader) (w : world),
    w_grad_enabled (snd (eval_block loader w)) = w_grad_enabled w
    /\ w_training (snd (eval_block loader w)) = w_training w
    /\ w_grad (snd (eval_block loader w)) = w_grad w
    /\ w_optim (snd (eval_block loader w)) = w_optim w
    /\ (forall e, fst (eval_block loader w) = Raise e ->
                  w_stdout (snd (eval_block loader w)) = w_stdout w).
Proof.
  intros loader w.
  split; [reflexivity|].
  split; [apply keeps_eval_body; intros; reflexivity|].
  split; [apply keeps_eval_body; intros; reflexivity|].
  split; [apply keeps_eval_body; intros; reflexivity|].
  unfold eval_block, with_no_grad. cbn [fst snd].
  set (w0 := set_grad_enabled false w).
  match goal with |- context [fst (?b w0)] => set (body := b) end.
  assert (Hbody : forall e, fst (body w0) = Raise e -> w_stdout (snd (body w0)) = w_stdout w0).
  { destruct (body w0) as [r w'] eqn:Eb. cbn [fst snd]. intros e ->.
    unfold body in Eb. unfold bindM at 1 in Eb.
    pose proof (keeps_loader_iter w_stdout loader (fun _ _ => eq_refl) w0) as Sa.
    destruct (loader_iter loader w0) as [[batches|e0] wa]; cbn [snd] in Sa;
      [|injection Eb as _ <-; exact Sa].
    unfold bindM at 1 in Eb.
    pose proof (keeps_eval_loop w_stdout loader
                  (fun e w1 => eq_refl) batches 0 (0, 0)%Z wa) as Sb.
    destruct (eval_loop loader 0 (0, 0)%Z batches wa) as [[ct|e1] wb]; cbn [snd] in Sb;
      [|injection Eb as _ <-; congruence].
    unfold bindM, lift, emit, print, modify, ret in Eb.
    destruct (true_div (100 * fst ct) (snd ct)); cbn [fst snd] in Eb;
      [discriminate | injection Eb as _ <-; congruence]. }
  intros e E. cbn [w_stdout set_grad_enabled]. rewrite (Hbody e E). reflexivity.
Qed.

(** The generator after training that completes: one permutation per
    epoch. *)
Lemma train_from_draws (loader : DataLoader) (n : nat) :
  shuffle loader = true ->
  forall (e : nat) (w : world),
    is_ok (fst (train_from loader e n w)) = true ->
    w_gen (snd (train_from loader e n w))
    = draws (length (dataset loader)) (w_gen w) n.
Proof.
  intros Sh. induction n as [|n IH]; intros e w; cbn [train_from draws].
  - reflexivity.
  - unfold bindM. pose proof (train_epoch_gen loader e w) as G. rewrite Sh in G.
    destruct (train_epoch loader e w) as [[[]|e1] w1]; cbn [fst snd] in *;
      [|discriminate].
    intros O. rewrite (IH (S e) w1 O), G. reflexivity.
Qed.

(** X14. Randomness is consumed by shuffling alone: training that completes
    [n] epochs over a shuffling loader leaves the generator where [n]
    successive [randperm] draws leave it, and the forward passes, the loss,
    the backward passes and the optimizer steps never touch it. *)
Theorem train_draws_one_permutation_per_epoch :
  forall (loader : DataLoader) (n : nat) (w : world),
    shuffle loader = true ->
    is_ok (fst (train loader n w)) = true ->
    w_gen (snd (train loader n w)) = draws (length (dataset loader)) (w_gen w) n.
Proof.
  intros loader n w Sh O. exact (train_from_draws loader n Sh 0 w O).
Qed.

(** X15. The notebook run top to bottom completes on well-formed data in
    a working environment: if the device is there, both MNIST downloads go
    through, gradient tracking is on (as in a fresh interpreter), neither
    dataset is empty, both hold single-channel images of one accepted size
    (28 x 28 for MNIST), the training labels are class indices and the loss
    returns on in-range labels, then no cell raises, [total] is the size of
    the test set, [0 <= correct <= total], the files are those the downloads
    left, and the console shows what the two downloads printed followed by
    exactly three lines: the two batch counts and the accuracy
    [100*correct/total]. *)
Theorem notebook_completes :
  forall (H W : nat) (w : world) (files1 files2 msgs1 msgs2 : list string),
    to_device "cuda" = Ok tt ->
    download_MNIST "./data" true (w_files w) = Ok (files1, msgs1) ->
    download_MNIST "./data" false files1 = Ok (files2, msgs2) ->
    w_grad_enabled w = true ->
    loss_accepts ->
    images_are H W (MNIST true) ->
    labels_in_range (MNIST true) ->
    MNIST true <> [] ->
    images_are H W (MNIST false) ->
    MNIST false <> [] ->
    (H / 4) * (W / 4) = 49 ->
    exists correct,
      fst (notebook w) = Ok (correct, Z.of_nat (length (MNIST false)))
      /\ (0 <= correct <= Z.of_nat (length (MNIST false)))%Z
      /\ w_files (snd (notebook w)) = files2
      /\ w_stdout (snd (notebook w))
         = w_stdout w ++ map Library msgs1 ++ map Library msgs2
           ++ [TrainBatches (len_loader (mkLoader (MNIST true) 4 true));
               TestBatches (len_loader (mkLoader (MNIST false) 4 true));
               Acc (Qmake (100 * correct) (Z.to_pos (Z.of_nat (length (MNIST false)))))].
Proof.
  intros H W w files1 files2 msgs1 msgs2 Hdev Hd1 Hd2 G La Ftr Ltr Ntr Fte NE E49.
  assert (Hrun : exists correct w',
             notebook w = (Ok (correct, Z.of_nat (length (MNIST false))), w')
             /\ (0 <= correct <= Z.of_nat (length (MNIST false)))%Z
             /\ w_files w' = files2
             /\ w_stdout w'
                = w_stdout w ++ map Library msgs1 ++ map Library msgs2
                  ++ [TrainBatches (len_loader (mkLoader (MNIST true) 4 true));
                      TestBatches (len_loader (mkLoader (MNIST false) 4 true));
                      Acc (Qmake (100 * correct)
                                 (Z.to_pos (Z.of_nat (length (MNIST false)))))]).
  { unfold notebook. unfold bindM at 1.
    destruct (setup_spec w files1 files2 msgs1 msgs2 Hdev Hd1 Hd2 Ntr NE)
      as (w1 & E1 & _ & _ & _ & _ & _ & G1 & F1 & S1).
    rewrite E1. rewrite G in G1.
    unfold train_and_evaluate. unfold bindM at 1. unfold train.
    pose proof (keeps_train_from w_stdout (mkLoader (MNIST true) 4 true)
                  (fun _ _ => eq_refl) (fun _ _ => eq_refl) (fun _ _ => eq_refl)
                  (fun _ _ => eq_refl) (fun _ _ => eq_refl) num_epoch 0 w1) as S2.
    pose proof (keeps_train_from w_files (mkLoader (MNIST true) 4 true)
                  (fun _ _ => eq_refl) (fun _ _ => eq_refl) (fun _ _ => eq_refl)
                  (fun _ _ => eq_refl) (fun _ _ => eq_refl) num_epoch 0 w1) as F2.
    destruct (train_from_completes (mkLoader (MNIST true) 4 true) H W La
                ltac:(cbn; lia) Ftr Ltr E49 num_epoch 0 w1 G1) as (w2 & E2).
    rewrite E2 in S2, F2 |- *. cbn [snd] in S2, F2.
    unfold bindM at 1. unfold model_eval, bindM at 1. unfold emit, modify.
    match goal with |- context [eval_block ?l ?w3] =>
      destruct (eval_block_success l H W w3 ltac:(cbn; lia) NE Fte E49)
        as (correct & Ef & B & S3);
      pose proof (keeps_eval_body w_files l
                    (fun _ _ => eq_refl) (fun _ _ => eq_refl)
                    (fun _ _ => eq_refl) (fun _ _ => eq_refl) w3) as F3;
      destruct (eval_block l w3) as [r w4]
    end.
    cbn [fst snd dataset w_stdout w_files set_training] in Ef, B, S3, F3. subst r.
    exists correct, w4. split; [reflexivity|]. split; [exact B|].
    split; [rewrite F3, F2; exact F1|].
    rewrite S3, S2, S1, <- !app_assoc. reflexivity. }
  destruct Hrun as (correct & w' & -> & B & F & S).
  exists correct. cbn [fst snd]. auto.
Qed.

End Frames.

(** ** Witnesses of the further properties *)

Lemma block_accepts_iff_witness :
  (is_ok (Sequential (mkMode false false)
            [Conv2d 1 16 5 1 2 (parameter [16; 1; 5; 5] (repeat 1%Z 400))
                    (parameter [16] (repeat 0%Z 16)); ReLU; MaxPool2d 2 2]
            toy_plane) = true
   <-> (exists N H W, shape toy_plane = [N; 1; H; W] /\ 2 <= H /\ 2 <= W)
       \/ (exists H W, shape toy_plane = [1; H; W] /\ 2 <= H /\ 2 <= W))
  /\ (forall y,
        Sequential (mkMode false false)
          [Conv2d 1 16 5 1 2 (parameter [16; 1; 5; 5] (repeat 1%Z 400))
                  (parameter [16] (repeat 0%Z 16)); ReLU; MaxPool2d 2 2]
          toy_plane = Ok y ->
        (exists N H W, shape toy_plane = [N; 1; H; W] /\ shape y = [N; 16; H / 2; W / 2])
        \/ (exists H W, shape toy_plane = [1; H; W] /\ shape y = [16; H / 2; W / 2])).
Proof.
  apply (block_accepts_iff (mkMode false false) 1 16
           (parameter [16; 1; 5; 5] (repeat 1%Z 400)) (parameter [16] (repeat 0%Z 16))
           toy_plane); lia.
Defined.

Lemma forward_raises_only_RuntimeError_witness : RuntimeError = RuntimeError.
Proof.
  apply (forward_raises_only_RuntimeError (mkMode false false) 10 toy_params toy_plane).
  vm_compute. reflexivity.
Defined.

Lemma forward_output_well_formed_witness :
  exists y, forward (mkMode false false) (CNN_init 10 toy_params) (toy_batch 2 28 28) = Ok y
            /\ shape y = [2; 10]
            /\ well_formed y
            /\ length (data y) = 2 * 10.
Proof.
  apply (forward_output_well_formed (mkMode false false) 10 toy_params
           (toy_batch 2 28 28) 2 28 28).
  - reflexivity.
  - lia.
  - reflexivity.
Defined.

Lemma forward_requires_grad_witness :
  exists y, forward (mkMode true false) (CNN_init 10 toy_params) (toy_batch 2 29 30) = Ok y
            /\ requires_grad y = grad_enabled (mkMode true false).
Proof.
  apply (forward_requires_grad (mkMode true false) 10 toy_params
           (toy_batch 2 29 30) 2 29 30).
  - reflexivity.
  - lia.
  - reflexivity.
Defined.

Lemma batch_sampler_sizes_witness :
  Forall (fun b => length b = 4) [[0; 1; 2; 3]; [4; 5; 6; 7]]
  /\ 1 <= length [8; 9] <= 4.
Proof.
  apply (batch_sampler_sizes 4 (seq 0 10) [[0; 1; 2; 3]; [4; 5; 6; 7]] [8; 9]).
  - lia.
  - reflexivity.
Defined.

Lemma loader_pass_partitions_witness :
  exists batches,
    fst (loader_iter toy_test_loader toy_world) = Ok batches
    /\ length batches = len_loader toy_test_loader
    /\ Forall (fun b => 1 <= length b <= batch_size toy_test_loader) batches
    /\ Permutation (concat batches) (seq 0 (length (dataset toy_test_loader))).
Proof.
  apply (loader_pass_partitions toy_test_loader toy_world). simpl. lia.
Defined.

Lemma toy_test_images : images_are 28 28 (dataset toy_test_loader).
Proof. repeat constructor. Defined.

Lemma toy_train_images : images_are 28 28 (dataset toy_train_loader).
Proof. repeat constructor. Defined.

Lemma toy_train_labels : labels_in_range (dataset toy_train_loader).
Proof. constructor; [cbn; lia | constructor]. Defined.

Lemma toy_loss_accepts : loss_accepts (TR := toy_torch).
Proof. intros outputs labels _ _. reflexivity. Defined.

Lemma eval_block_completes_witness :
  exists correct,
    fst (eval_block toy_test_loader toy_world)
    = Ok (correct, Z.of_nat (length (dataset toy_test_loader)))
    /\ (0 <= correct <= Z.of_nat (length (dataset toy_test_loader)))%Z
    /\ w_stdout (snd (eval_block toy_test_loader toy_world))
       = w_stdout toy_world
         ++ [Acc (Qmake (100 * correct)
                        (Z.to_pos (Z.of_nat (length (dataset toy_test_loader)))))].
Proof.
  apply (eval_block_completes toy_test_loader 28 28 toy_world).
  - simpl. lia.
  - discriminate.
  - exact toy_test_images.
  - reflexivity.
Defined.

Lemma eval_block_failures_witness :
  RuntimeError = RuntimeError
  \/ (RuntimeError = ZeroDivisionError /\ dataset toy_small_loader = []).
Proof.
  apply (eval_block_failures toy_small_loader toy_world RuntimeError).
  - simpl. lia.
  - vm_compute. reflexivity.
Defined.

Lemma train_completes_witness :
  (w_grad_enabled toy_world = true -> fst (train toy_train_loader 3 toy_world) = Ok tt)
  /\ (w_grad_enabled toy_world = false -> dataset toy_train_loader <> [] -> 0 < 3 ->
      fst (train toy_train_loader 3 toy_world) = Raise RuntimeError).
Proof.
  apply (train_completes toy_train_loader 28 28 3 toy_world).
  - exact toy_loss_accepts.
  - simpl. lia.
  - exact toy_train_images.
  - exact toy_train_labels.
  - reflexivity.
Defined.

(** With the switch off, the toy training run stops at its first backward
    pass, after the forward pass, the loss and zero_grad. *)
Example toy_run_detached :
  let run := train toy_train_loader 1 toy_world_no_grad in
  (fst run, w_trace (snd run))
  = (Raise RuntimeError,
     [TrainEv 0 0 SForward; TrainEv 0 0 SLoss; TrainEv 0 0 SZeroGrad;
      TrainEv 0 0 SBackward]).
Proof. vm_compute. reflexivity. Qed.

Lemma train_draws_one_permutation_per_epoch_witness :
  w_gen (snd (train toy_train_loader 1 toy_world))
  = draws (length (dataset toy_train_loader)) (w_gen toy_world) 1.
Proof.
  apply (train_draws_one_permutation_per_epoch toy_train_loader 1 toy_world).
  - reflexivity.
  - vm_compute. reflexivity.
Defined.

Lemma notebook_completes_witness :
  exists correct,
    fst (notebook toy_world) = Ok (correct, Z.of_nat (length (MNIST false)))
    /\ (0 <= correct <= Z.of_nat (length (MNIST false)))%Z
    /\ w_files (snd (notebook toy_world)) = ["./data"%string]
    /\ w_stdout (snd (notebook toy_world))
       = w_stdout toy_world ++ map Library ["Downloading"%string] ++ map Library []
         ++ [TrainBatches (len_loader (mkLoader (MNIST true) 4 true));
             TestBatches (len_loader (mkLoader (MNIST false) 4 true));
             Acc (Qmake (100 * correct) (Z.to_pos (Z.of_nat (length (MNIST false)))))].
Proof.
  apply (notebook_completes 28 28 toy_world ["./data"%string] ["./data"%string]
           ["Downloading"%string] []).
  - reflexivity.
  - reflexivity.
  - reflexivity.
  - reflexivity.
  - exact toy_loss_accepts.
  - exact toy_train_images.
  - exact toy_train_labels.
  - discriminate.
  - exact toy_test_images.
  - discriminate.
  - reflexivity.
Defined.
